(** * LMStudioAPI: message normalisation, parameter mapping and the
      streaming protocol of [app/services.py] and [app/routes/chat.py]

    The development embeds the chat gateway shallowly:
    - Python values that reach [build_messages] are scalars, attachment
      dictionaries and lists of them; dictionaries are finite maps with
      string keys;
    - code that can raise lives in an error monad [result];
    - the async generator [stream_respond] lives in a monad that records
      the events yielded so far next to a result;
    - the inference backend is a function from the call parameters to
      what [client.chat.completions.create] gives back. *)

From Stdlib Require Import ZArith Ascii String List Lia.
From stdpp Require Import base option list strings pretty gmap fin_maps.

Local Open Scope string_scope.
Local Open Scope list_scope.
Local Open Scope Z_scope.

(** ** Exceptions and the error monad *)

Module Py.

(** A raised exception: its class and the text [str(e)] gives. *)
Record exn := Exn { exn_class : string; exn_message : string }.

Definition exn_str (e : exn) : string := exn_message e.

Inductive result (A : Type) : Type :=
| Ok (a : A)
| Raise (e : exn).
Arguments Ok {A} a.
Arguments Raise {A} e.

#[global] Instance result_ret : MRet result := fun _ a => Ok a.
#[global] Instance result_bind : MBind result := fun _ _ f m =>
  match m with
  | Ok a => f a
  | Raise e => Raise e
  end.

(** ** Values *)

(** Scalars of a decoded JSON body, as Python holds them. *)
Inductive scalar :=
| SNone
| SBool (b : bool)
| SInt (z : Z)
| SStr (s : string).

(** What a message dictionary can hold under a key: a scalar, or a list
    of attachment dictionaries. *)
Inductive pyval :=
| PScalar (s : scalar)
| PList (l : list (gmap string scalar)).

(** What iterating a value hands to the loop body. *)
Inductive item :=
| IDict (d : gmap string scalar)
| IChar (c : string).

Definition string_nonempty (s : string) : bool :=
  match s with EmptyString => false | String _ _ => true end.

(** [bool(x)] *)
Definition scalar_truthy (s : scalar) : bool :=
  match s with
  | SNone => false
  | SBool b => b
  | SInt z => negb (z =? 0)
  | SStr s => string_nonempty s
  end.

Definition truthy (v : pyval) : bool :=
  match v with
  | PScalar s => scalar_truthy s
  | PList [] => false
  | PList (_ :: _) => true
  end.

(** [str(x)], which is what an f-string field without a format spec
    inserts. It is exact on None, booleans and strings, and on integers
    up to the length the interpreter agrees to print (4300 digits unless
    configured otherwise); a longer integer is refused there with a
    ValueError and printed here all the same. *)
Definition py_str (s : scalar) : string :=
  match s with
  | SNone => "None"
  | SBool true => "True"
  | SBool false => "False"
  | SInt z => pretty z
  | SStr s => s
  end.

(** [x or y] *)
Definition py_or (x y : pyval) : pyval := if truthy x then x else y.

Fixpoint chars (s : string) : list string :=
  match s with
  | EmptyString => []
  | String c s' => String c EmptyString :: chars s'
  end.

Definition type_name (s : scalar) : string :=
  match s with
  | SNone => "NoneType"
  | SBool _ => "bool"
  | SInt _ => "int"
  | SStr _ => "str"
  end.

Definition TypeError_not_iterable (s : scalar) : exn :=
  Exn "TypeError" ("'" +:+ type_name s +:+ "' object is not iterable").

Definition AttributeError_get : exn :=
  Exn "AttributeError" "'str' object has no attribute 'get'".

Definition IndexError : exn :=
  Exn "IndexError" "list index out of range".

(** [for x in v]: the items the loop visits, or the [TypeError] of a
    value that cannot be iterated. *)
Definition iterate (v : pyval) : result (list item) :=
  match v with
  | PList l => Ok (IDict <$> l)
  | PScalar (SStr s) => Ok (IChar <$> chars s)
  | PScalar s => Raise (TypeError_not_iterable s)
  end.

(** Looking up the method [get] on an item: dictionaries have it,
    one-character strings do not. *)
Definition dict_of_item (it : item) : result (gmap string scalar) :=
  match it with
  | IDict d => Ok d
  | IChar _ => Raise AttributeError_get
  end.

End Py.
Export Py.

(** ** [build_messages] (app/services.py) *)

Module Messages.

(** One entry of [content_parts]. *)
Inductive content_part :=
| TextPart (text : pyval)          (* {"type": "text", "text": ...} *)
| ImageUrlPart (url : string).     (* {"type": "image_url", "image_url": {"url": ...}} *)

(** The value under ["content"] of a formatted message. *)
Inductive message_content :=
| PlainContent (content : pyval)
| PartsContent (content_parts : list content_part).

(** {"role": ..., "content": ...} *)
Record formatted_message := FormattedMessage {
  fm_role : pyval;
  fm_content : message_content
}.

(** The body of [for img in images], threading [content_parts]. *)
Definition image_step (content_parts : list content_part) (img : item)
  : result (list content_part) :=
  d ← dict_of_item img;
  let b64 := default SNone (d !! "data_base64") in
  let mime_type := default (SStr "image/jpeg") (d !! "mime_type") in
  if scalar_truthy b64
  then mret (content_parts ++
             [ImageUrlPart ("data:" +:+ py_str mime_type +:+ ";base64," +:+ py_str b64)])
  else mret content_parts.

Fixpoint images_loop (content_parts : list content_part) (images : list item)
  : result (list content_part) :=
  match images with
  | [] => mret content_parts
  | img :: rest =>
      content_parts' ← image_step content_parts img;
      images_loop content_parts' rest
  end.

(** The body of [for msg in messages]: the message appended to
    [formatted_messages]. *)
Definition format_message (msg : gmap string pyval) : result formatted_message :=
  let role := default (PScalar (SStr "user")) (msg !! "role") in
  let content := default (PScalar (SStr EmptyString)) (msg !! "content") in
  let images := py_or (default (PList []) (msg !! "images")) (PList []) in
  if negb (truthy images)
  then mret (FormattedMessage role (PlainContent content))
  else
    let content_parts := [] in
    let content_parts :=
      if truthy content then content_parts ++ [TextPart content] else content_parts in
    items ← iterate images;
    content_parts ← images_loop content_parts items;
    mret (FormattedMessage role (PartsContent content_parts)).

Fixpoint messages_loop (formatted_messages : list formatted_message)
    (messages : list (gmap string pyval)) : result (list formatted_message) :=
  match messages with
  | [] => mret formatted_messages
  | msg :: rest =>
      fm ← format_message msg;
      messages_loop (formatted_messages ++ [fm]) rest
  end.

Definition build_messages (messages : list (gmap string pyval))
  : result (list formatted_message) :=
  messages_loop [] messages.

(** *** The normaliser as the specification words it *)

(** A data URI embedding the mime type and the base64 payload. *)
Definition data_uri (mime_type data : string) : string :=
  "data:" +:+ mime_type +:+ ";base64," +:+ data.

(** The image part of one attachment: none when it carries no data; the
    mime type is image/jpeg when the attachment has no such key. *)
Definition spec_image_part (img : gmap string scalar) : option content_part :=
  match img !! "data_base64" with
  | Some data =>
      if scalar_truthy data
      then Some (ImageUrlPart
                   (data_uri (from_option py_str "image/jpeg" (img !! "mime_type"))
                             (py_str data)))
      else None
  | None => None
  end.

(** The text part, present when the text is non-empty. *)
Definition spec_text_part (content : pyval) : list content_part :=
  if truthy content then [TextPart content] else [].

(** The two keys read with a default. *)
Definition turn_role (msg : gmap string pyval) : pyval :=
  default (PScalar (SStr "user")) (msg !! "role").
Definition turn_text (msg : gmap string pyval) : pyval :=
  default (PScalar (SStr EmptyString)) (msg !! "content").

(** A chat turn: its images entry, when there is one, is a list of
    attachment dictionaries or a falsy value (None, as a decoder may
    leave it). *)
Definition turn_shaped (msg : gmap string pyval) : bool :=
  match msg !! "images" with
  | None => true
  | Some (PList _) => true
  | Some (PScalar s) => negb (scalar_truthy s)
  end.

(** The turn's image list; a turn without the key, or with a null
    there, has none. *)
Definition turn_images (msg : gmap string pyval) : list (gmap string scalar) :=
  match msg !! "images" with
  | Some (PList imgs) => imgs
  | _ => []
  end.

(** The rule of the data model: the plain-text form for a turn without
    images; otherwise the multi-part form, the text part first when the
    text is non-empty, then one image part per attachment that carries
    data, in attachment order. *)
Definition spec_normalize (msg : gmap string pyval) : formatted_message :=
  match turn_images msg with
  | [] => FormattedMessage (turn_role msg) (PlainContent (turn_text msg))
  | imgs =>
      FormattedMessage (turn_role msg)
        (PartsContent (spec_text_part (turn_text msg) ++ omap spec_image_part imgs))
  end.

(** The values a chat turn's attachment holds under the two keys read:
    strings, None or a boolean, but no number. *)
Definition no_number (s : scalar) : bool :=
  match s with
  | SInt _ => false
  | _ => true
  end.

Definition attachment_texts (img : gmap string scalar) : bool :=
  from_option no_number true (img !! "data_base64")
  && from_option no_number true (img !! "mime_type").

Definition turn_texts (msg : gmap string pyval) : bool :=
  match msg !! "images" with
  | Some (PList imgs) => forallb attachment_texts imgs
  | _ => true
  end.

(** A chat turn in full: shaped as one, with attachments that hold no
    number. *)
Definition chat_turn (msg : gmap string pyval) : bool :=
  turn_shaped msg && turn_texts msg.

End Messages.
Export Messages.

(** ** The inference backend, as the service sees it *)

Module Backend.

(** Non-streaming response objects: only the attributes [respond] reads. *)
Record message := { message_content : option string }.
Record choice := {
  choice_message : message;
  choice_finish_reason : option string
}.
Record usage := { completion_tokens : Z }.
Record completion := {
  completion_model : string;
  completion_choices : list choice;
  completion_usage : option usage
}.

(** Streaming units: only the attributes [stream_respond] reads. *)
Record delta := { delta_content : option string }.
Record chunk_choice := {
  chunk_delta : option delta;
  chunk_finish_reason : option string
}.
Record chunk := {
  chunk_choices : list chunk_choice;
  chunk_model : option string
}.

(** How iterating the stream stops once its units are consumed. *)
Inductive stream_end :=
| EndOfStream
| StreamError (e : exn).

Record stream := {
  stream_units : list chunk;
  stream_ending : stream_end
}.

End Backend.
Export Backend.

(** ** [respond] and [stream_respond] (app/services.py) *)

Module Service.

(** The two settings the service reads (app/config.py). *)
Record Settings := {
  default_regular_model : string;
  default_vision_model : string
}.

(** [x or y] with [x : Optional[str]]. *)
Definition str_or (x : option string) (y : string) : string :=
  match x with
  | Some s => if string_nonempty s then s else y
  | None => y
  end.

(** The dictionary [respond] returns. *)
Record respond_result := {
  rr_model : string;
  rr_content : option string;
  rr_stop_reason : option string;
  rr_predicted_tokens : option Z
}.

(** What the generator yields. *)
Inductive event :=
| Fragment (content : string)
| Done (model : string) (predicted_tokens : option Z) (stop_reason : option string).

(** *** The generator monad: the events yielded so far and a result *)

Definition gen (A : Type) : Type := list event * result A.

#[global] Instance gen_ret : MRet gen := fun _ a => ([], Ok a).
#[global] Instance gen_bind : MBind gen := fun _ _ f m =>
  match m with
  | (evs, Ok a) => let '(evs', r) := f a in (evs ++ evs', r)
  | (evs, Raise e) => (evs, Raise e)
  end.

Definition yield (ev : event) : gen unit := ([ev], Ok tt).
Definition lift {A} (r : result A) : gen A := ([], r).
Definition events {A} (g : gen A) : list event := fst g.
Definition outcome {A} (g : gen A) : result A := snd g.

(** The locals [stream_respond] updates while it consumes the stream. *)
Record locals := {
  model_name : option string;
  total_tokens : Z;
  finish_reason : option string
}.

Definition opt_truthy (x : option string) : bool :=
  match x with Some s => string_nonempty s | None => false end.

(** The body of [async for chunk in stream]. *)
Definition chunk_step (st : locals) (chunk : chunk) : gen locals :=
  match chunk_choices chunk with
  | [] => mret st
  | choice :: _ =>
      let st :=
        match model_name st with
        | None => if opt_truthy (chunk_model chunk)
                  then {| model_name := chunk_model chunk;
                          total_tokens := total_tokens st;
                          finish_reason := finish_reason st |}
                  else st
        | Some _ => st
        end in
      st ← match chunk_delta choice with
           | Some d =>
               match delta_content d with
               | Some text =>
                   if string_nonempty text
                   then _ ← yield (Fragment text);
                        mret {| model_name := model_name st;
                                total_tokens := total_tokens st + 1;
                                finish_reason := finish_reason st |}
                   else mret st
               | None => mret st
               end
           | None => mret st
           end;
      if opt_truthy (chunk_finish_reason choice)
      then mret {| model_name := model_name st;
                   total_tokens := total_tokens st;
                   finish_reason := chunk_finish_reason choice |}
      else mret st
  end.

Fixpoint stream_loop (st : locals) (units : list chunk) : gen locals :=
  match units with
  | [] => mret st
  | chunk :: rest =>
      st' ← chunk_step st chunk;
      stream_loop st' rest
  end.

(** Asking the stream for a unit it does not have. *)
Definition stream_stop (e : stream_end) : gen unit :=
  match e with
  | EndOfStream => mret tt
  | StreamError exn => lift (Raise exn)
  end.

Definition done_event (model : string) (st : locals) : event :=
  Done (str_or (model_name st) model)
       (if 0 <? total_tokens st then Some (total_tokens st) else None)
       (finish_reason st).

(** Everything after [stream = await client.chat.completions.create(...)]. *)
Definition consume (model : string) (s : stream) : gen unit :=
  let st := {| model_name := None; total_tokens := 0; finish_reason := None |} in
  st ← stream_loop st (stream_units s);
  _ ← stream_stop (stream_ending s);
  yield (done_event model st).

(** *** What one backend unit contributes, in the words of the
        specification *)

(** The text a unit carries: the content of its first choice's delta,
    when there is a first choice, a delta and a non-empty content. *)
Definition unit_text (c : chunk) : option string :=
  match chunk_choices c with
  | [] => None
  | choice :: _ =>
      d ← chunk_delta choice;
      text ← delta_content d;
      if string_nonempty text then Some text else None
  end.

(** The model name a unit reports. *)
Definition reported_model (c : chunk) : option string :=
  if opt_truthy (chunk_model c) then chunk_model c else None.

(** The model name of a unit that has at least one choice. *)
Definition unit_model (c : chunk) : option string :=
  match chunk_choices c with
  | [] => None
  | _ :: _ => reported_model c
  end.

(** The finish reason a unit reports: that of its first choice. *)
Definition unit_finish_reason (c : chunk) : option string :=
  match chunk_choices c with
  | [] => None
  | choice :: _ =>
      if opt_truthy (chunk_finish_reason choice)
      then chunk_finish_reason choice else None
  end.

(** The locals after one more unit. *)
Definition advance (st : locals) (c : chunk) : locals :=
  {| model_name :=
       match model_name st with
       | Some m => Some m
       | None => unit_model c
       end;
     total_tokens :=
       total_tokens st + (match unit_text c with Some _ => 1 | None => 0 end);
     finish_reason :=
       match unit_finish_reason c with
       | Some r => Some r
       | None => finish_reason st
       end |}.

(** The count carried by Done: absent when no fragment was emitted. *)
Definition fragment_count (texts : list string) : option Z :=
  match texts with
  | [] => None
  | _ :: _ => Some (Z.of_nat (length texts))
  end.

(** The fixed renaming of the parameter mapper, read from the backend
    name back to the config field. *)
Definition client_field (k : string) : option string :=
  if decide (k = "temperature") then Some "temperature"
  else if decide (k = "max_tokens") then Some "maxTokens"
  else if decide (k = "top_p") then Some "topP"
  else if decide (k = "presence_penalty") then Some "presencePenalty"
  else if decide (k = "frequency_penalty") then Some "frequencyPenalty"
  else None.

(** *** Call parameters *)

Section Calls.

(** The numbers of a generation config. The service never inspects them,
    so they are kept abstract. *)
Context {num : Type}.

(** What a keyword argument of the [create] call holds. *)
Inductive param :=
| ParamStr (s : string)
| ParamMessages (l : list formatted_message)
| ParamBool (b : bool)
| ParamNum (v : num).

(** [client.chat.completions.create] applied to the keyword arguments:
    a completion without ["stream"], a stream of units with it. *)
Record client := {
  create : gmap string param → result completion;
  create_stream : gmap string param → result stream
}.

(** [config or {}] *)
Definition config_or_empty (config : option (gmap string num)) : gmap string num :=
  match config with
  | Some c => if (size c =? 0)%nat then ∅ else c
  | None => ∅
  end.

(** [if src in cfg: params[dst] = cfg[src]] *)
Definition forward (src dst : string) (cfg : gmap string num)
    (params : gmap string param) : gmap string param :=
  match cfg !! src with
  | Some v => <[dst := ParamNum v]> params
  | None => params
  end.

(** The five conditional assignments, in source order. *)
Definition generation_params (cfg : gmap string num)
    (params : gmap string param) : gmap string param :=
  let params := forward "temperature" "temperature" cfg params in
  let params := forward "maxTokens" "max_tokens" cfg params in
  let params := forward "topP" "top_p" cfg params in
  let params := forward "presencePenalty" "presence_penalty" cfg params in
  let params := forward "frequencyPenalty" "frequency_penalty" cfg params in
  params.

(** [respond] up to the backend call: the keyword arguments. *)
Definition respond_params (settings : Settings)
    (messages : list (gmap string pyval)) (model_key : option string)
    (config : option (gmap string num)) : result (gmap string param) :=
  let model := str_or model_key (default_regular_model settings) in
  formatted_messages ← build_messages messages;
  let cfg := config_or_empty config in
  let params : gmap string param :=
    <["messages" := ParamMessages formatted_messages]>
      (<["model" := ParamStr model]> ∅) in
  mret (generation_params cfg params).

(** [xs[0]] *)
Definition first {A} (xs : list A) : result A :=
  match xs with
  | x :: _ => Ok x
  | [] => Raise IndexError
  end.

Definition respond (settings : Settings) (c : client)
    (messages : list (gmap string pyval)) (model_key : option string)
    (config : option (gmap string num)) : result respond_result :=
  params ← respond_params settings messages model_key config;
  response ← create c params;
  choice0 ← first (completion_choices response);
  mret {| rr_model := completion_model response;
          rr_content := message_content (choice_message choice0);
          rr_stop_reason := choice_finish_reason choice0;
          rr_predicted_tokens := completion_tokens <$> completion_usage response |}.

(** [stream_respond] up to the backend call. *)
Definition stream_params (settings : Settings)
    (messages : list (gmap string pyval)) (model_key : option string)
    (config : option (gmap string num)) : result (gmap string param) :=
  let model := str_or model_key (default_regular_model settings) in
  formatted_messages ← build_messages messages;
  let cfg := config_or_empty config in
  let params : gmap string param :=
    <["stream" := ParamBool true]>
      (<["messages" := ParamMessages formatted_messages]>
         (<["model" := ParamStr model]> ∅)) in
  mret (generation_params cfg params).

(** The stream the generator iterates, when the call that opens it
    succeeds. *)
Definition open_stream (settings : Settings) (c : client)
    (messages : list (gmap string pyval)) (model_key : option string)
    (config : option (gmap string num)) : result stream :=
  params ← stream_params settings messages model_key config;
  create_stream c params.

Definition stream_respond (settings : Settings) (c : client)
    (messages : list (gmap string pyval)) (model_key : option string)
    (config : option (gmap string num)) : gen unit :=
  let model := str_or model_key (default_regular_model settings) in
  s ← lift (open_stream settings c messages model_key config);
  consume model s.

Definition respond_regular (settings : Settings) (c : client)
    (messages : list (gmap string pyval)) (config : option (gmap string num))
  : result respond_result :=
  let model_key := default_regular_model settings in
  respond settings c messages (Some model_key) config.

(** The wrappers re-yield every item of [stream_respond]. *)
Definition stream_respond_regular (settings : Settings) (c : client)
    (messages : list (gmap string pyval)) (config : option (gmap string num))
  : gen unit :=
  let model_key := default_regular_model settings in
  stream_respond settings c messages (Some model_key) config.

Definition respond_vision (settings : Settings) (c : client)
    (messages : list (gmap string pyval)) (config : option (gmap string num))
  : result respond_result :=
  let model_key := default_vision_model settings in
  respond settings c messages (Some model_key) config.

Definition stream_respond_vision (settings : Settings) (c : client)
    (messages : list (gmap string pyval)) (config : option (gmap string num))
  : gen unit :=
  let model_key := default_vision_model settings in
  stream_respond settings c messages (Some model_key) config.

(** The generation parameter the mapper owes under backend name [k]:
    the value of the config field renamed to [k], when the config is
    there and has that field. *)
Definition generation_entry (config : option (gmap string num)) (k : string)
  : option param :=
  src ← client_field k;
  v ← default ∅ config !! src;
  Some (ParamNum v).

End Calls.

Arguments param : clear implicits.
Arguments client : clear implicits.

End Service.
Export Service.

(** ** Request schemas (app/schemas.py) and the non-streaming endpoints
       (app/routes/chat.py) *)

Module Routes.

Record ChatImage := {
  data_base64 : string;
  mime_type : option string
}.

Record ChatMessage := {
  role : string;
  content : string;
  images : list ChatImage
}.

Record ChatResponse := {
  model : string;
  response_content : string;
  stop_reason : option string;
  predicted_tokens : option Z
}.

(** [ChatImage.model_dump()]: both keys are always there; a null mime
    type stays None. *)
Definition image_dump (img : ChatImage) : gmap string scalar :=
  <["mime_type" := from_option SStr SNone (mime_type img)]>
    (<["data_base64" := SStr (data_base64 img)]> ∅).

(** [ChatMessage.model_dump()] *)
Definition message_dump (m : ChatMessage) : gmap string pyval :=
  <["images" := PList (image_dump <$> images m)]>
    (<["content" := PScalar (SStr (content m))]>
       (<["role" := PScalar (SStr (role m))]> ∅)).

(** Building [ChatResponse] from the returned dictionary: [content] is
    declared [str], so a null text is rejected and the constructor raises
    the ValidationError of the schema library (nothing is built); the
    other three fields accept what [respond] puts there. *)
Definition make_ChatResponse (data : respond_result) : option ChatResponse :=
  match rr_content data with
  | Some text =>
      Some {| model := rr_model data;
              response_content := text;
              stop_reason := rr_stop_reason data;
              predicted_tokens := rr_predicted_tokens data |}
  | None => None
  end.

(** How a handler ends: it returns the body (answered 200), raises
    [HTTPException], or lets an exception of the named class escape. The
    text of an escaping exception is not modelled. *)
Inductive reply :=
| Returned (body : ChatResponse)
| HTTPException (status_code : Z) (detail : string)
| Escaped (exception_class : string).

Definition unavailable (e : exn) : reply :=
  HTTPException 503 ("Chat service unavailable: " +:+ exn_str e).

(** [try: data = ... except Exception as e: raise HTTPException(503, ...)]
    followed by [return ChatResponse(...)] outside the handler. *)
Definition guarded (attempt : result respond_result) : reply :=
  match attempt with
  | Raise e => unavailable e
  | Ok data =>
      match make_ChatResponse data with
      | Some body => Returned body
      | None => Escaped "ValidationError"
      end
  end.

Section Endpoints.

Context {num : Type}.

Record ChatConfig := {
  temperature : option num;
  maxTokens : option num;
  topP : option num;
  presencePenalty : option num;
  frequencyPenalty : option num
}.

Record ChatRequest := {
  model_key : option string;
  messages : list ChatMessage;
  config : option ChatConfig
}.

Record RegularChatRequest := {
  regular_messages : list ChatMessage;
  regular_config : option ChatConfig
}.

Record VisionChatRequest := {
  vision_messages : list ChatMessage;
  vision_config : option ChatConfig
}.

Definition dump_field (key : string) (field : option num)
    (d : gmap string num) : gmap string num :=
  match field with
  | Some v => <[key := v]> d
  | None => d
  end.

(** [ChatConfig.model_dump(exclude_none=True)] *)
Definition config_dump (cfg : ChatConfig) : gmap string num :=
  dump_field "frequencyPenalty" (frequencyPenalty cfg)
    (dump_field "presencePenalty" (presencePenalty cfg)
       (dump_field "topP" (topP cfg)
          (dump_field "maxTokens" (maxTokens cfg)
             (dump_field "temperature" (temperature cfg) ∅)))).

Definition chat (settings : Settings) (c : client num) (req : ChatRequest)
  : reply :=
  guarded
    (let messages := message_dump <$> messages req in
     let config := config_dump <$> config req in
     respond settings c messages (model_key req) config).

Definition chat_regular (settings : Settings) (c : client num)
    (req : RegularChatRequest) : reply :=
  guarded
    (let messages := message_dump <$> regular_messages req in
     let config := config_dump <$> regular_config req in
     respond_regular settings c messages config).

Definition chat_vision (settings : Settings) (c : client num)
    (req : VisionChatRequest) : reply :=
  guarded
    (let messages := message_dump <$> vision_messages req in
     let config := config_dump <$> vision_config req in
     respond_vision settings c messages config).

End Endpoints.

Arguments ChatConfig : clear implicits.
Arguments ChatRequest : clear implicits.
Arguments RegularChatRequest : clear implicits.
Arguments VisionChatRequest : clear implicits.

End Routes.
Export Routes.

(** ** The streaming endpoints (app/routes/chat.py) *)

Module StreamRoutes.

(** What a validated message becomes for the backend: the role as given;
    the plain text without images; otherwise the text part, when the text
    is non-empty, and one data URI per image with data, the mime type
    printed as it was validated (None for an explicit null). *)
Definition validated_image_part (img : ChatImage) : option content_part :=
  if string_nonempty (data_base64 img)
  then Some (ImageUrlPart
               ("data:" +:+ from_option id "None" (mime_type img) +:+ ";base64,"
                +:+ data_base64 img))
  else None.

Definition validated_message (m : ChatMessage) : formatted_message :=
  match images m with
  | [] =>
      FormattedMessage (PScalar (SStr (role m)))
        (PlainContent (PScalar (SStr (content m))))
  | imgs =>
      FormattedMessage (PScalar (SStr (role m)))
        (PartsContent
           ((if string_nonempty (content m)
             then [TextPart (PScalar (SStr (content m)))] else [])
            ++ omap validated_image_part imgs))
  end.

(** The line feed that ends every line of the body. *)
Definition newline : string := String (ascii_of_nat 10) EmptyString.

(** How a streaming handler ends: with the streaming response, whose body
    is the lines produced and how producing them stopped, or with
    [HTTPException]. *)
Inductive stream_reply :=
| StreamingResponse (media_type : string) (body : list string * result unit)
| StreamHTTPException (status_code : Z) (detail : string).

Section StreamEndpoints.

Context {num : Type}.

(** [json.dumps] on the dictionaries the generator yields. *)
Context (dumps : event → string).

(** [json.dumps(item) + newline] *)
Definition frame (item : event) : string := dumps item +:+ newline.

(** [event_gen]: every item of the generator is framed as it arrives; an
    error of the generator ends the body after the lines already
    produced. *)
Definition event_gen (g : gen unit) : list string * result unit :=
  (frame <$> events g, outcome g).

(** The three handlers. The guarded block only dumps the validated
    request, which cannot fail; the stream is consumed once the response
    has been returned. *)
Definition chat_stream (settings : Settings) (c : client num) (req : ChatRequest num)
  : stream_reply :=
  let messages := message_dump <$> messages req in
  let config := config_dump <$> config req in
  StreamingResponse "application/x-ndjson"
    (event_gen (stream_respond settings c messages (model_key req) config)).

Definition chat_regular_stream (settings : Settings) (c : client num)
    (req : RegularChatRequest num) : stream_reply :=
  let messages := message_dump <$> regular_messages req in
  let config := config_dump <$> regular_config req in
  StreamingResponse "application/x-ndjson"
    (event_gen (stream_respond_regular settings c messages config)).

Definition chat_vision_stream (settings : Settings) (c : client num)
    (req : VisionChatRequest num) : stream_reply :=
  let messages := message_dump <$> vision_messages req in
  let config := config_dump <$> vision_config req in
  StreamingResponse "application/x-ndjson"
    (event_gen (stream_respond_vision settings c messages config)).

(** The body a streaming handler owes, read off what the backend does
    with the call: nothing and the error when the call fails; the framed
    fragments, then the framed Done, when the stream ends normally; the
    framed fragments and the error when the stream breaks. *)
Definition stream_body (model : string) (opened : result stream)
  : list string * result unit :=
  match opened with
  | Raise e => ([], Raise e)
  | Ok st =>
      let fragments := frame <$> (Fragment <$> omap unit_text (stream_units st)) in
      match stream_ending st with
      | EndOfStream =>
          (fragments ++
             [frame (Done (default model (head (omap unit_model (stream_units st))))
                          (fragment_count (omap unit_text (stream_units st)))
                          (last (omap unit_finish_reason (stream_units st))))],
           Ok tt)
      | StreamError e => (fragments, Raise e)
      end
  end.

End StreamEndpoints.

End StreamRoutes.
Export StreamRoutes.

(** ** [ModelManager] (app/model_manager.py) *)

Module Manager.

(** What [get_info] returns, as far as the manager reads it. An
    attribute is missing (None), or present with a value that may itself
    be None. *)
Record info := {
  modelKey : option (option string);
  displayName : option (option string)
}.

(** [getattr(info, name, default)] *)
Definition getattr (attribute : option (option string)) (default : option string)
  : option string :=
  match attribute with
  | Some value => value
  | None => default
  end.

(** {"key": ..., "display_name": ...}, also the fields of [ModelInfo]. *)
Record entry := {
  entry_key : string;
  entry_display_name : option string
}.

(** A listed model: its key and its display name are non-empty. *)
Definition listed (en : entry) : Prop :=
  string_nonempty (entry_key en) = true ∧
  ∃ d, entry_display_name en = Some d ∧ string_nonempty d = true.

Definition ModelNotAvailable (message : string) : exn :=
  Exn "ModelNotAvailable" message.

(** Calls on the model host change it and may raise: a computation takes
    the state of the host and gives the state after it with a result. *)
Definition host (W A : Type) : Type := W → W * result A.

#[global] Instance host_ret {W} : MRet (host W) := λ _ a w, (w, Ok a).
#[global] Instance host_bind {W} : MBind (host W) := λ _ _ f m w,
  match m w with
  | (w', Ok a) => f a w'
  | (w', Raise e) => (w', Raise e)
  end.

Definition raise {W A} (e : exn) : host W A := λ w, (w, Raise e).

(** [try: m except Exception as e: handler e] *)
Definition try_except {W A} (m : host W A) (handler : exn → host W A) : host W A :=
  λ w, match m w with
       | (w', Ok a) => (w', Ok a)
       | (w', Raise e) => handler e w'
       end.

(** The LM Studio SDK, as far as the manager calls it: [H] are the model
    handles. *)
Record sdk (W H : Type) := {
  list_loaded_models : host W (list H);
  llm : string → host W H;
  get_info : H → host W info;
  unload : H → host W unit
}.
Arguments list_loaded_models {W H} _.
Arguments llm {W H} _ _.
Arguments get_info {W H} _ _.
Arguments unload {W H} _ _.

Section WithSdk.

Context {W H : Type} (lms : sdk W H).

(** The body of the loop of [list_models]. *)
Definition list_models_step (result : list entry) (model : H) : host W (list entry) :=
  try_except
    (info ← get_info lms model;
     let model_key := getattr (modelKey info) None in
     let display_name := getattr (displayName info) None in
     match model_key with
     | Some k =>
         if string_nonempty k
         then mret (result ++
                    [ {| entry_key := k;
                         entry_display_name := Some (str_or display_name k) |} ])
         else mret result
     | None => mret result
     end)
    (λ _, mret result).

Fixpoint list_models_loop (result : list entry) (models : list H)
  : host W (list entry) :=
  match models with
  | [] => mret result
  | model :: rest =>
      result' ← list_models_step result model;
      list_models_loop result' rest
  end.

Definition list_models : host W (list entry) :=
  models ← try_except (list_loaded_models lms)
              (λ e, raise (ModelNotAvailable
                             ("Could not connect to LM Studio: " +:+ exn_str e)));
  list_models_loop [] models.

(** The body of the loop of [unload_all]. *)
Definition unload_all_step (unloaded : list string) (model : H)
  : host W (list string) :=
  try_except
    (info ← get_info lms model;
     let key := getattr (modelKey info) None in
     _ ← unload lms model;
     match key with
     | Some k => if string_nonempty k then mret (unloaded ++ [k]) else mret unloaded
     | None => mret unloaded
     end)
    (λ _, mret unloaded).

Fixpoint unload_all_loop (unloaded : list string) (models : list H)
  : host W (list string) :=
  match models with
  | [] => mret unloaded
  | model :: rest =>
      unloaded' ← unload_all_step unloaded model;
      unload_all_loop unloaded' rest
  end.

(** The outer handler can only be reached from the listing call, every
    iteration having its own: [unloaded] is then still empty. *)
Definition unload_all : host W (list string) :=
  try_except
    (models ← list_loaded_models lms;
     unload_all_loop [] models)
    (λ _, mret []).

Definition load_model (model_key : string) (exclusive : bool) : host W entry :=
  try_except
    (_ ← (if exclusive then _ ← unload_all; mret tt else mret tt);
     model ← llm lms model_key;
     display_name ←
       try_except
         (info ← get_info lms model;
          mret (getattr (displayName info) (Some model_key)))
         (λ _, mret (Some model_key));
     mret {| entry_key := model_key; entry_display_name := display_name |})
    (λ e, raise (ModelNotAvailable
                   ("Failed to load model " +:+ model_key +:+ ": " +:+ exn_str e))).

Definition unload_model (model_key : string) : host W bool :=
  try_except
    (model ← llm lms model_key;
     _ ← unload lms model;
     mret true)
    (λ e, raise (ModelNotAvailable
                   ("Failed to unload model " +:+ model_key +:+ ": " +:+ exn_str e))).

End WithSdk.

End Manager.
Export Manager.

(** ** The model endpoints (app/routes/models.py) *)

Module ModelRoutes.

Record LoadModelRequest := {
  load_model_key : string;
  load_exclusive : bool
}.

Record LoadModelResponse := {
  loaded : bool;
  loaded_model : option entry;
  load_error : option string
}.

Record UnloadModelRequest := {
  unload_model_key : option string;
  unload_all_flag : bool
}.

Record UnloadModelResponse := {
  success : bool;
  unloaded_keys : list string;
  unload_error : option string
}.

(** How a handler ends: it returns its response, raises [HTTPException],
    or lets another exception escape. *)
Inductive api_reply (A : Type) :=
| ApiReturned (response : A)
| ApiHTTPException (status_code : Z) (detail : string)
| ApiEscaped (e : exn).
Arguments ApiReturned {A} response.
Arguments ApiHTTPException {A} status_code detail.
Arguments ApiEscaped {A} e.

Definition is_ModelNotAvailable (e : exn) : bool :=
  String.eqb (exn_class e) "ModelNotAvailable".

Section WithSdk.

Context {W H : Type} (lms : sdk W H).

(** GET /models *)
Definition list_models_endpoint : W → W * api_reply (list entry) :=
  λ w, match list_models lms w with
       | (w', Ok models) => (w', ApiReturned models)
       | (w', Raise e) =>
           if is_ModelNotAvailable e
           then (w', ApiHTTPException 503 (exn_str e))
           else (w', ApiEscaped e)
       end.

(** POST /models/load *)
Definition load_model_endpoint (req : LoadModelRequest)
  : W → W * api_reply LoadModelResponse :=
  λ w, match load_model lms (load_model_key req) (load_exclusive req) w with
       | (w', Ok model_info) =>
           (w', ApiReturned {| loaded := true;
                               loaded_model := Some model_info;
                               load_error := None |})
       | (w', Raise e) =>
           if is_ModelNotAvailable e
           then (w', ApiReturned {| loaded := false;
                                    loaded_model := None;
                                    load_error := Some (exn_str e) |})
           else (w', ApiEscaped e)
       end.

(** The guarded block of POST /models/unload: the keys unloaded, or the
    response returned early. *)
Definition unload_attempt (req : UnloadModelRequest)
  : host W (list string + UnloadModelResponse) :=
  if unload_all_flag req
  then unloaded ← unload_all lms; mret (inl unloaded)
  else if opt_truthy (unload_model_key req)
  then _ ← unload_model lms (default EmptyString (unload_model_key req));
       mret (inl [default EmptyString (unload_model_key req)])
  else mret (inr {| success := false;
                    unloaded_keys := [];
                    unload_error := Some "Must specify model_key or unload_all=true" |}).

(** POST /models/unload *)
Definition unload_model_endpoint (req : UnloadModelRequest)
  : W → W * api_reply UnloadModelResponse :=
  λ w, match unload_attempt req w with
       | (w', Ok (inl unloaded)) =>
           (w', ApiReturned {| success := true;
                               unloaded_keys := unloaded;
                               unload_error := None |})
       | (w', Ok (inr response)) => (w', ApiReturned response)
       | (w', Raise e) =>
           if is_ModelNotAvailable e
           then (w', ApiReturned {| success := false;
                                    unloaded_keys := [];
                                    unload_error := Some (exn_str e) |})
           else (w', ApiEscaped e)
       end.

End WithSdk.

End ModelRoutes.
Export ModelRoutes.

(** ** [Settings.cors_origin_list] (app/config.py) *)

Module Config.

(** [str.isspace] on one character. Characters are the code points below
    256: the ASCII white space, the four separators 28 to 31, NEL and the
    no-break space. *)
Definition is_space (a : ascii) : bool :=
  let n := nat_of_ascii a in
  ((9 <=? n) && (n <=? 13) || (28 <=? n) && (n <=? 32)
   || (n =? 133) || (n =? 160))%nat.

Definition is_comma (a : ascii) : bool := (nat_of_ascii a =? 44)%nat.

Fixpoint lstrip (s : string) : string :=
  match s with
  | EmptyString => EmptyString
  | String a s' => if is_space a then lstrip s' else s
  end.

Fixpoint rstrip (s : string) : string :=
  match s with
  | EmptyString => EmptyString
  | String a s' =>
      match rstrip s' with
      | EmptyString => if is_space a then EmptyString else String a EmptyString
      | r => String a r
      end
  end.

(** [s.strip()] *)
Definition strip (s : string) : string := rstrip (lstrip s).

(** [s.split(",")]: one piece more than there are commas. *)
Fixpoint split_commas (s : string) : list string :=
  match s with
  | EmptyString => [EmptyString]
  | String a s' =>
      if is_comma a then EmptyString :: split_commas s'
      else match split_commas s' with
           | piece :: pieces => String a piece :: pieces
           | [] => [String a EmptyString]
           end
  end.

(** [",".join(l)] *)
Fixpoint join_commas (l : list string) : string :=
  match l with
  | [] => EmptyString
  | [x] => x
  | x :: rest => x +:+ "," +:+ join_commas rest
  end.

(** [[o.strip() for o in pieces if o.strip()]] *)
Definition stripped_nonempty (pieces : list string) : list string :=
  omap (λ o, if string_nonempty (strip o) then Some (strip o) else None) pieces.

Definition cors_origin_list (cors_origins : string) : list string :=
  if String.eqb cors_origins "*" then ["*"]
  else stripped_nonempty (split_commas cors_origins).

Fixpoint has_comma (s : string) : bool :=
  match s with
  | EmptyString => false
  | String a s' => is_comma a || has_comma s'
  end.

(** An origin as the list holds it: not empty, nothing to strip, no
    comma. *)
Definition clean_origin (o : string) : bool :=
  string_nonempty o && String.eqb (strip o) o && negb (has_comma o).

End Config.
Export Config.

(** * Sample inputs *)

(** An attachment whose mime type is an explicit null. *)
Definition null_mime_attachment : gmap string scalar :=
  {[ "data_base64" := SStr "Qg=="; "mime_type" := SNone ]}.

(** Three attachments: one without a mime type, one with a null mime
    type, one without data. *)
Definition sample_attachments : list (gmap string scalar) :=
  [ {[ "data_base64" := SStr "QQ==" ]};
    null_mime_attachment;
    {[ "mime_type" := SStr "image/png" ]} ].

(** A turn with an unknown role, no text and the three attachments. *)
Definition sample_vision_turn : gmap string pyval :=
  {[ "role" := PScalar (SStr "narrator"); "images" := PList sample_attachments ]}.

(** A conversation used to run the theorems below: a system turn without
    an images key, the turn with attachments, and a turn whose images
    entry is null. *)
Definition sample_turns : list (gmap string pyval) :=
  [ {[ "role" := PScalar (SStr "system"); "content" := PScalar (SStr "be brief") ]};
    sample_vision_turn;
    {[ "content" := PScalar (SStr "hi"); "images" := PScalar SNone ]} ].

Definition sample_settings : Settings :=
  {| default_regular_model := "m1"; default_vision_model := "v1" |}.

Definition text_unit (model text : string) : chunk :=
  {| chunk_choices := [ {| chunk_delta := Some {| delta_content := Some text |};
                           chunk_finish_reason := None |} ];
     chunk_model := Some model |}.

Definition finish_unit (model reason : string) : chunk :=
  {| chunk_choices := [ {| chunk_delta := Some {| delta_content := None |};
                           chunk_finish_reason := Some reason |} ];
     chunk_model := Some model |}.

(** A unit without choices that still names a model. *)
Definition bare_unit (model : string) : chunk :=
  {| chunk_choices := []; chunk_model := Some model |}.

(** Three text deltas, then the finish reason. *)
Definition sample_units : list chunk :=
  [ text_unit "m1-q4" "Hel"; text_unit "m1-q4" "lo"; text_unit "m1-q4" "!";
    finish_unit "m1-q4" "stop" ].

Definition sample_completion : completion :=
  {| completion_model := "m1-q4";
     completion_choices :=
       [ {| choice_message := {| message_content := Some "Hello!" |};
            choice_finish_reason := Some "stop" |} ];
     completion_usage := Some {| completion_tokens := 3 |} |}.

Definition connection_error : exn := Exn "APIConnectionError" "Connection error.".

(** A backend that answers every call the same way. *)
Definition constant_client (r : result completion) (s : result stream) : client Z :=
  {| create := λ _, r; create_stream := λ _, s |}.

Definition sample_client : client Z :=
  constant_client (Ok sample_completion)
    (Ok {| stream_units := sample_units; stream_ending := EndOfStream |}).

(** The connection drops after the first delta. *)
Definition dropping_client : client Z :=
  constant_client (Raise connection_error)
    (Ok {| stream_units := [text_unit "m1-q4" "Hel"];
           stream_ending := StreamError connection_error |}).

(** The first unit names a model but has no choices. *)
Definition bare_first_client : client Z :=
  constant_client (Ok sample_completion)
    (Ok {| stream_units := [bare_unit "A"; text_unit "B" "hi"];
           stream_ending := EndOfStream |}).

Definition sample_request : ChatRequest Z :=
  {| model_key := Some "m1";
     messages := [ {| role := "user"; content := "describe";
                      images := [ {| data_base64 := "QQ=="; mime_type := None |} ] |} ];
     config := Some {| temperature := Some 7; maxTokens := None; topP := None;
                       presencePenalty := None; frequencyPenalty := None |} |}.

(** A backend whose first choice has no text. *)
Definition null_content_client : client Z :=
  constant_client
    (Ok {| completion_model := "m1-q4";
           completion_choices :=
             [ {| choice_message := {| message_content := None |};
                  choice_finish_reason := Some "stop" |} ];
           completion_usage := None |})
    (Raise connection_error).

Definition sample_config : gmap string Z :=
  {[ "temperature" := 7; "maxTokens" := 256; "seed" := 42 ]}.

Definition sample_params : gmap string (param Z) :=
  generation_params sample_config
    (<["messages" := ParamMessages (spec_normalize <$> sample_turns)]>
       (<["model" := ParamStr "m1"]> ∅)).

(** The call parameters of [sample_request]. *)
Definition sample_request_params : gmap string (param Z) :=
  generation_params (config_dump {| temperature := Some 7; maxTokens := None;
                                    topP := None; presencePenalty := None;
                                    frequencyPenalty := None |})
    (<["messages" := ParamMessages
         [FormattedMessage (PScalar (SStr "user"))
            (PartsContent [TextPart (PScalar (SStr "describe"));
                           ImageUrlPart "data:None;base64,QQ=="])]]>
       (<["model" := ParamStr "m1"]> ∅)).

(** A backend that echoes: the completion names the model it was asked
    for; the stream has no unit. *)
Definition echo_completion (model : string) : completion :=
  {| completion_model := model;
     completion_choices :=
       [ {| choice_message := {| message_content := Some "<echo>" |};
            choice_finish_reason := Some "stop" |} ];
     completion_usage := Some {| completion_tokens := 1 |} |}.

Definition model_required : exn := Exn "BadRequestError" "model is required".

Definition echo_client {num : Type} : client num :=
  {| create := λ params,
       match params !! "model" with
       | Some (ParamStr m) => Ok (echo_completion m)
       | _ => Raise model_required
       end;
     create_stream := λ params,
       match params !! "model" with
       | Some (ParamStr m) => Ok {| stream_units := []; stream_ending := EndOfStream |}
       | _ => Raise model_required
       end |}.

Definition empty_vision_settings : Settings :=
  {| default_regular_model := "m1"; default_vision_model := EmptyString |}.

(** A simulated model host: its state is the list of loaded keys, a
    handle is a key; only the keys of [known_models] can be loaded; the
    display name of a model is not set. *)
Definition known_models : list string := ["qwen3"; "qwen3-vl"].

Definition sample_host : sdk (list string) string :=
  {| list_loaded_models := λ w, (w, Ok w);
     llm := λ k w,
       if bool_decide (k ∈ known_models)
       then (if bool_decide (k ∈ w) then w else w ++ [k], Ok k)
       else (w, Raise (Exn "LMStudioModelNotFoundError" "model not found"));
     get_info := λ h w,
       (w, Ok {| modelKey := Some (Some h); displayName := Some None |});
     unload := λ h w, (filter (λ k, k ≠ h) w, Ok tt) |}.

(** A host that cannot be reached. *)
Definition unreachable_host : sdk (list string) string :=
  {| list_loaded_models := λ w, (w, Raise connection_error);
     llm := λ _ w, (w, Raise connection_error);
     get_info := λ _ w, (w, Raise connection_error);
     unload := λ _ w, (w, Raise connection_error) |}.

(** * Properties *)

(** ** The error monad *)

Lemma bind_Ok {A B} (a : A) (f : A → result B) : (Ok a ≫= f) = f a.
Proof. reflexivity. Qed.

Lemma bind_Raise {A B} (e : exn) (f : A → result B) : (Raise e ≫= f) = Raise e.
Proof. reflexivity. Qed.

(** ** Message normalisation *)

(** Integers are formatted the way [str] prints them. *)
Example py_str_int :
  py_str (SInt (-5)) = "-5" ∧ py_str (SInt 0) = "0" ∧ py_str (SInt 120) = "120".
Proof. vm_compute. repeat split. Qed.

Lemma image_step_dict (acc : list content_part) (d : gmap string scalar) :
  image_step acc (IDict d) = Ok (acc ++ option_list (spec_image_part d)).
Proof.
  unfold image_step, spec_image_part, data_uri.
  cbn [dict_of_item]. rewrite bind_Ok.
  destruct (d !! "data_base64") as [data|]; simpl.
  - destruct (scalar_truthy data); simpl.
    + by destruct (d !! "mime_type").
    + by rewrite app_nil_r.
  - by rewrite app_nil_r.
Qed.

Lemma images_loop_dicts (imgs : list (gmap string scalar)) :
  ∀ acc, images_loop acc (IDict <$> imgs) = Ok (acc ++ omap spec_image_part imgs).
Proof.
  induction imgs as [|d imgs IH]; intros acc; simpl.
  - by rewrite app_nil_r.
  - rewrite image_step_dict, bind_Ok, IH, <- app_assoc. f_equal. f_equal.
    by destruct (spec_image_part d).
Qed.

Lemma format_message_shaped (msg : gmap string pyval) :
  turn_shaped msg = true → format_message msg = Ok (spec_normalize msg).
Proof.
  unfold turn_shaped, format_message, spec_normalize, turn_images.
  fold (turn_role msg). fold (turn_text msg).
  destruct (msg !! "images") as [[s|[|d imgs]]|];
    cbn [default from_option id py_or truthy negb]; intros Hs; try done.
  - apply negb_true_iff in Hs. unfold py_or. cbn [truthy]. by rewrite Hs.
  - unfold py_or. cbn [truthy negb iterate].
    rewrite bind_Ok, images_loop_dicts, bind_Ok.
    unfold spec_text_part. by destruct (truthy (turn_text msg)).
Qed.

Lemma messages_loop_shaped (msgs : list (gmap string pyval)) :
  Forall (λ m, turn_shaped m = true) msgs →
  ∀ acc, messages_loop acc msgs = Ok (acc ++ (spec_normalize <$> msgs)).
Proof.
  induction 1 as [|m msgs Hm _ IH]; intros acc; simpl.
  - by rewrite app_nil_r.
  - rewrite (format_message_shaped m Hm), bind_Ok, IH, <- app_assoc. done.
Qed.

Lemma build_messages_shaped (msgs : list (gmap string pyval)) :
  Forall (λ m, turn_shaped m = true) msgs →
  build_messages msgs = Ok (spec_normalize <$> msgs).
Proof. intros H. unfold build_messages. by rewrite messages_loop_shaped. Qed.

Lemma shaped_Forall (msgs : list (gmap string pyval)) :
  forallb turn_shaped msgs = true → Forall (λ m, turn_shaped m = true) msgs.
Proof.
  induction msgs as [|m msgs IH]; simpl; intros H; constructor.
  - by apply andb_true_iff in H as [? _].
  - apply IH. by apply andb_true_iff in H as [_ ?].
Qed.

Lemma shaped_lookup (msgs : list (gmap string pyval)) i msg :
  forallb turn_shaped msgs = true → msgs !! i = Some msg → turn_shaped msg = true.
Proof.
  intros H Hi. apply shaped_Forall in H.
  by apply (proj1 (Forall_lookup _ _) H i msg).
Qed.

(** Outside the shape of a chat turn the loop over the images raises:
    an integer is not iterable, the characters of a string have no
    [get]. *)
Lemma format_message_int_images :
  format_message {[ "images" := PScalar (SInt 5) ]}
  = Raise (Exn "TypeError" "'int' object is not iterable").
Proof. vm_compute. reflexivity. Qed.

Lemma format_message_str_images :
  format_message {[ "images" := PScalar (SStr "ab") ]}
  = Raise (Exn "AttributeError" "'str' object has no attribute 'get'").
Proof. vm_compute. reflexivity. Qed.

(** End-to-end scenario 2 of the specification. *)
Example build_messages_vision :
  build_messages
    [ {[ "role" := PScalar (SStr "user");
         "content" := PScalar (SStr "describe");
         "images" := PList [ {[ "data_base64" := SStr "QQ==";
                                "mime_type" := SStr "image/png" ]} ] ]} ]
  = Ok [ FormattedMessage (PScalar (SStr "user"))
           (PartsContent [TextPart (PScalar (SStr "describe"));
                          ImageUrlPart "data:image/png;base64,QQ=="]) ].
Proof. vm_compute. reflexivity. Qed.

Example build_messages_sample :
  build_messages sample_turns
  = Ok [ FormattedMessage (PScalar (SStr "system")) (PlainContent (PScalar (SStr "be brief")));
         FormattedMessage (PScalar (SStr "narrator"))
           (PartsContent [ImageUrlPart "data:image/jpeg;base64,QQ==";
                          ImageUrlPart "data:None;base64,Qg=="]);
         FormattedMessage (PScalar (SStr "user")) (PlainContent (PScalar (SStr "hi"))) ].
Proof. vm_compute. reflexivity. Qed.

Lemma chat_turns_shaped (msgs : list (gmap string pyval)) :
  forallb chat_turn msgs = true → forallb turn_shaped msgs = true.
Proof.
  induction msgs as [|m msgs IH]; [done|]. cbn [forallb]. unfold chat_turn at 1.
  intros H. apply andb_true_iff in H as [Hm Hrest].
  apply andb_true_iff in Hm as [Hm _]. by rewrite Hm, IH.
Qed.

Lemma spec_image_part_unfold (img : gmap string scalar) :
  spec_image_part img
  = match img !! "data_base64" with
    | Some data =>
        if scalar_truthy data
        then Some (ImageUrlPart
                     ("data:" +:+
                      match img !! "mime_type" with
                      | Some mime_type => py_str mime_type
                      | None => "image/jpeg"
                      end +:+ ";base64," +:+ py_str data))
        else None
    | None => None
    end.
Proof.
  unfold spec_image_part, data_uri.
  destruct (img !! "data_base64") as [data|]; [|done].
  destruct (scalar_truthy data); [|done]. by destruct (img !! "mime_type").
Qed.

Lemma omap_spec_image_part (imgs : list (gmap string scalar)) :
  omap spec_image_part imgs
  = omap (λ img : gmap string scalar,
            match img !! "data_base64" with
            | Some data =>
                if scalar_truthy data
                then Some (ImageUrlPart
                             ("data:" +:+
                              match img !! "mime_type" with
                              | Some mime_type => py_str mime_type
                              | None => "image/jpeg"
                              end +:+ ";base64," +:+ py_str data))
                else None
            | None => None
            end) imgs.
Proof.
  apply list_omap_ext. induction imgs as [|img imgs IH]; constructor;
    [apply spec_image_part_unfold | exact IH].
Qed.

(** C4, as stated: [build_messages] would return one message per input
    message for every input list and never raise. It raises a TypeError
    on a message whose images entry is the number 5. *)
Lemma build_messages_never_raises_counterexample :
  ¬ (∀ msgs : list (gmap string pyval),
       ∃ out, build_messages msgs = Ok out ∧ length out = length msgs).
Proof.
  intros H.
  destruct (H [ {[ "images" := PScalar (SInt 5) ]} ]) as (out & Hout & _).
  vm_compute in Hout. discriminate Hout.
Qed.

(** C4, amended. For every list of chat turns (the images entry of each
    is missing, falsy or a list of attachment dictionaries, which hold no
    number), [build_messages] returns, without raising, exactly one
    normalised message per turn, in the order of the input: the role is
    the turn's own, whatever it is (user when the turn has none); a turn
    without images gives its text; otherwise the text part, when the
    text is non-empty, is followed by one part per attachment that has
    data, an attachment without data or with empty data giving no part
    and a missing mime type being read as image/jpeg. *)
Theorem build_messages_chat_turns (msgs : list (gmap string pyval)) :
  forallb chat_turn msgs = true →
  ∃ out,
    build_messages msgs = Ok out ∧
    length out = length msgs ∧
    ∀ i msg, msgs !! i = Some msg →
      ∃ fm,
        out !! i = Some fm ∧
        fm_role fm = default (PScalar (SStr "user")) (msg !! "role") ∧
        fm_content fm
        = match turn_images msg with
          | [] => PlainContent (default (PScalar (SStr EmptyString)) (msg !! "content"))
          | imgs =>
              PartsContent
                ((if truthy (default (PScalar (SStr EmptyString)) (msg !! "content"))
                  then [TextPart (default (PScalar (SStr EmptyString)) (msg !! "content"))]
                  else [])
                 ++ omap (λ img : gmap string scalar,
                            match img !! "data_base64" with
                            | Some data =>
                                if scalar_truthy data
                                then Some (ImageUrlPart
                                             ("data:" +:+
                                              match img !! "mime_type" with
                                              | Some mime_type => py_str mime_type
                                              | None => "image/jpeg"
                                              end +:+ ";base64," +:+ py_str data))
                                else None
                            | None => None
                            end) imgs)
          end.
Proof.
  intros Hturns. pose proof (chat_turns_shaped msgs Hturns) as Hshape.
  exists (spec_normalize <$> msgs). split; [|split].
  - apply build_messages_shaped, shaped_Forall, Hshape.
  - apply length_fmap.
  - intros i msg Hi. exists (spec_normalize msg).
    split; [by rewrite list_lookup_fmap, Hi|].
    unfold spec_normalize, turn_role, turn_text, spec_text_part.
    destruct (turn_images msg) as [|img imgs]; [done|].
    split; [done|]. cbn [fm_content]. by rewrite omap_spec_image_part.
Qed.

Lemma build_messages_chat_turns_witness :
  ∃ out,
    build_messages sample_turns = Ok out ∧
    length out = length sample_turns ∧
    ∀ i msg, sample_turns !! i = Some msg →
      ∃ fm,
        out !! i = Some fm ∧
        fm_role fm = default (PScalar (SStr "user")) (msg !! "role") ∧
        fm_content fm
        = match turn_images msg with
          | [] => PlainContent (default (PScalar (SStr EmptyString)) (msg !! "content"))
          | imgs =>
              PartsContent
                ((if truthy (default (PScalar (SStr EmptyString)) (msg !! "content"))
                  then [TextPart (default (PScalar (SStr EmptyString)) (msg !! "content"))]
                  else [])
                 ++ omap (λ img : gmap string scalar,
                            match img !! "data_base64" with
                            | Some data =>
                                if scalar_truthy data
                                then Some (ImageUrlPart
                                             ("data:" +:+
                                              match img !! "mime_type" with
                                              | Some mime_type => py_str mime_type
                                              | None => "image/jpeg"
                                              end +:+ ";base64," +:+ py_str data))
                                else None
                            | None => None
                            end) imgs)
          end.
Proof. apply (build_messages_chat_turns sample_turns). vm_compute. reflexivity. Defined.

(** C5. For every chat turn: with an empty image list the emitted
    message is the plain-text form (role and content); with images it is
    the multi-part form, the text part first exactly when the text is
    non-empty, then one image part per attachment with non-empty data, in
    attachment order, each a URI data:<mime type>;base64,<data> whose
    mime type is image/jpeg when the attachment has none; attachments
    without data give no part. *)
Theorem build_messages_plain_or_parts (msgs : list (gmap string pyval)) :
  forallb turn_shaped msgs = true →
  ∃ out,
    build_messages msgs = Ok out ∧
    ∀ i msg, msgs !! i = Some msg →
      (turn_images msg = [] →
         out !! i = Some (FormattedMessage (turn_role msg) (PlainContent (turn_text msg)))) ∧
      (turn_images msg ≠ [] →
         out !! i = Some (FormattedMessage (turn_role msg)
                            (PartsContent (spec_text_part (turn_text msg) ++
                                           omap spec_image_part (turn_images msg))))).
Proof.
  intros Hshape. exists (spec_normalize <$> msgs). split.
  - apply build_messages_shaped, shaped_Forall, Hshape.
  - intros i msg Hi. rewrite list_lookup_fmap, Hi. unfold spec_normalize. simpl.
    split; intros Himgs.
    + by rewrite Himgs.
    + by destruct (turn_images msg).
Qed.

Lemma build_messages_plain_or_parts_witness :
  ∃ out,
    build_messages sample_turns = Ok out ∧
    ∀ i msg, sample_turns !! i = Some msg →
      (turn_images msg = [] →
         out !! i = Some (FormattedMessage (turn_role msg) (PlainContent (turn_text msg)))) ∧
      (turn_images msg ≠ [] →
         out !! i = Some (FormattedMessage (turn_role msg)
                            (PartsContent (spec_text_part (turn_text msg) ++
                                           omap spec_image_part (turn_images msg))))).
Proof. apply (build_messages_plain_or_parts sample_turns). vm_compute. reflexivity. Defined.

Lemma spec_image_part_null_mime (d : gmap string scalar) (b64 : string) :
  d !! "mime_type" = Some SNone →
  d !! "data_base64" = Some (SStr b64) →
  string_nonempty b64 = true →
  spec_image_part d = Some (ImageUrlPart ("data:None;base64," +:+ b64)).
Proof.
  intros Hmime Hdata Hne. unfold spec_image_part.
  rewrite Hdata, Hmime. cbn [scalar_truthy]. by rewrite Hne.
Qed.

(** A turn whose only attachment has a null mime type: the parts are the
    text part, if any, and the one image part, spelled with None. *)
Lemma null_mime_single_attachment (msg : gmap string pyval)
    (d : gmap string scalar) (b64 : string) :
  msg !! "images" = Some (PList [d]) →
  d !! "mime_type" = Some SNone →
  d !! "data_base64" = Some (SStr b64) →
  string_nonempty b64 = true →
  build_messages [msg]
  = Ok [FormattedMessage (turn_role msg)
          (PartsContent (spec_text_part (turn_text msg) ++
                         [ImageUrlPart ("data:None;base64," +:+ b64)]))].
Proof.
  intros Himgs Hmime Hdata Hne.
  rewrite build_messages_shaped.
  - cbn [fmap list_fmap]. unfold spec_normalize, turn_images. rewrite Himgs.
    cbn [omap list_omap]. by rewrite (spec_image_part_null_mime d b64).
  - constructor; [|constructor]. unfold turn_shaped. by rewrite Himgs.
Qed.

(** C10. The image/jpeg default applies only when the mime_type key is
    absent. For every attachment whose mime_type key is present with the
    value None (and whose data is a non-empty string), [build_messages]
    emits an image part whose URL is data:None;base64, followed by the
    data; image/jpeg is not substituted. *)
Theorem null_mime_type_is_formatted_as_None
    (msgs : list (gmap string pyval)) (i j : nat) (msg : gmap string pyval)
    (imgs : list (gmap string scalar)) (d : gmap string scalar) (b64 : string) :
  forallb turn_shaped msgs = true →
  msgs !! i = Some msg →
  msg !! "images" = Some (PList imgs) →
  imgs !! j = Some d →
  d !! "mime_type" = Some SNone →
  d !! "data_base64" = Some (SStr b64) →
  string_nonempty b64 = true →
  ∃ out parts,
    build_messages msgs = Ok out ∧
    out !! i = Some (FormattedMessage (turn_role msg) (PartsContent parts)) ∧
    ImageUrlPart ("data:None;base64," +:+ b64) ∈ parts.
Proof.
  intros Hshape Hi Himgs Hj Hmime Hdata Hne.
  pose proof (spec_image_part_null_mime d b64 Hmime Hdata Hne) as Hpart.
  exists (spec_normalize <$> msgs),
    (spec_text_part (turn_text msg) ++ omap spec_image_part imgs).
  split; [|split].
  - apply build_messages_shaped, shaped_Forall, Hshape.
  - rewrite list_lookup_fmap, Hi. simpl. f_equal.
    unfold spec_normalize, turn_images. rewrite Himgs.
    destruct imgs as [|d0 imgs']; [by rewrite lookup_nil in Hj | done].
  - apply elem_of_app. right. apply list_elem_of_omap.
    exists d. split; [|done]. by eapply list_elem_of_lookup_2.
Qed.

Lemma null_mime_type_is_formatted_as_None_witness :
  ∃ out parts,
    build_messages sample_turns = Ok out ∧
    out !! 1%nat
      = Some (FormattedMessage (turn_role sample_vision_turn) (PartsContent parts)) ∧
    ImageUrlPart ("data:None;base64," +:+ "Qg==") ∈ parts.
Proof.
  apply (null_mime_type_is_formatted_as_None sample_turns 1 1 sample_vision_turn
           sample_attachments null_mime_attachment "Qg==");
    vm_compute; reflexivity.
Defined.

(** ** The stream responder *)

Lemma gen_bind_Ok {A B} (evs : list event) (a : A) (f : A → gen B) :
  ((evs, Ok a) ≫= f) = (evs ++ events (f a), outcome (f a)).
Proof. unfold mbind, gen_bind. by destruct (f a). Qed.

Lemma gen_bind_Raise {A B} (evs : list event) (e : exn) (f : A → gen B) :
  ((evs, Raise e) ≫= f) = (evs, Raise e).
Proof. reflexivity. Qed.

Lemma chunk_step_advance (st : locals) (c : chunk) :
  chunk_step st c = (option_list (Fragment <$> unit_text c), Ok (advance st c)).
Proof.
  destruct st as [mn tt fr], c as [choices cm].
  unfold chunk_step, advance, unit_text, unit_model, unit_finish_reason,
    reported_model; simpl.
  destruct choices as [|[dl cfr] choices]; simpl.
  { destruct mn; by rewrite Z.add_0_r. }
  destruct cm as [cm|], cfr as [cfr|], mn as [mn|]; simpl;
    repeat match goal with
           | |- context [string_nonempty ?x] => destruct (string_nonempty x); simpl
           end;
    destruct dl as [[[text|]]|]; simpl;
    try destruct (string_nonempty text); simpl;
    by rewrite ?Z.add_0_r.
Qed.

Lemma omap_cons {A B} (f : A → option B) (x : A) (l : list A) :
  omap f (x :: l) = option_list (f x) ++ omap f l.
Proof. simpl. by destruct (f x). Qed.

Lemma stream_loop_advance (units : list chunk) :
  ∀ st, stream_loop st units
        = (Fragment <$> omap unit_text units, Ok (foldl advance st units)).
Proof.
  induction units as [|c units IH]; intros st; [done|].
  cbn [stream_loop foldl]. rewrite chunk_step_advance, gen_bind_Ok, IH.
  cbn [events outcome fst snd]. f_equal.
  rewrite omap_cons, fmap_app. by destruct (unit_text c).
Qed.

Lemma advance_model_name (units : list chunk) :
  ∀ st, model_name (foldl advance st units)
        = match model_name st with
          | Some m => Some m
          | None => head (omap unit_model units)
          end.
Proof.
  induction units as [|c units IH]; intros st.
  - simpl. by destruct (model_name st).
  - cbn [foldl]. rewrite IH, omap_cons. unfold advance at 1. cbn [model_name].
    destruct (model_name st); [done|]. by destruct (unit_model c).
Qed.

Lemma advance_total_tokens (units : list chunk) :
  ∀ st, total_tokens (foldl advance st units)
        = total_tokens st + Z.of_nat (length (omap unit_text units)).
Proof.
  induction units as [|c units IH]; intros st.
  - simpl. lia.
  - cbn [foldl]. rewrite IH, omap_cons. unfold advance at 1. cbn [total_tokens].
    destruct (unit_text c); simpl length; lia.
Qed.

Lemma advance_finish_reason (units : list chunk) :
  ∀ st, finish_reason (foldl advance st units)
        = match last (omap unit_finish_reason units) with
          | Some r => Some r
          | None => finish_reason st
          end.
Proof.
  induction units as [|c units IH]; intros st; [done|].
  cbn [foldl]. rewrite IH, omap_cons. unfold advance at 1. cbn [finish_reason].
  destruct (unit_finish_reason c) as [r|]; [|done].
  cbn [option_list option_rect app]. rewrite last_cons.
  by destruct (last (omap unit_finish_reason units)).
Qed.

Lemma unit_model_nonempty (units : list chunk) (m : string) :
  head (omap unit_model units) = Some m → string_nonempty m = true.
Proof.
  intros Hm. assert (m ∈ omap unit_model units) as Hin.
  { destruct (omap unit_model units); simplify_eq/=. left. }
  apply list_elem_of_omap in Hin as (c & _ & Hc).
  unfold unit_model, reported_model in Hc.
  destruct (chunk_choices c); [done|].
  destruct (opt_truthy (chunk_model c)) eqn:Ht; [|done].
  rewrite Hc in Ht. exact Ht.
Qed.

Lemma done_event_advance (model : string) (units : list chunk) :
  done_event model
    (foldl advance {| model_name := None; total_tokens := 0; finish_reason := None |} units)
  = Done (default model (head (omap unit_model units)))
         (fragment_count (omap unit_text units))
         (last (omap unit_finish_reason units)).
Proof.
  unfold done_event.
  rewrite advance_model_name, advance_total_tokens, advance_finish_reason.
  cbn [model_name total_tokens finish_reason]. f_equal.
  - destruct (head (omap unit_model units)) as [m|] eqn:Hm; [|done].
    simpl. by rewrite (unit_model_nonempty units m Hm).
  - unfold fragment_count. destruct (omap unit_text units); [done|].
    rewrite Z.add_0_l. simpl length.
    destruct (0 <? Z.of_nat (S (length l))) eqn:Hlt; [done|].
    apply Z.ltb_ge in Hlt. lia.
  - by destruct (last (omap unit_finish_reason units)).
Qed.

Lemma consume_normal (model : string) (units : list chunk) :
  consume model {| stream_units := units; stream_ending := EndOfStream |}
  = ((Fragment <$> omap unit_text units) ++
       [Done (default model (head (omap unit_model units)))
             (fragment_count (omap unit_text units))
             (last (omap unit_finish_reason units))],
     Ok tt).
Proof.
  unfold consume. cbn [stream_units stream_ending].
  rewrite stream_loop_advance, gen_bind_Ok. cbn [stream_stop].
  change (mret tt : gen unit) with (([] : list event), Ok tt).
  rewrite gen_bind_Ok. unfold yield. cbn [events outcome fst snd].
  by rewrite done_event_advance.
Qed.

Lemma consume_error (model : string) (units : list chunk) (e : exn) :
  consume model {| stream_units := units; stream_ending := StreamError e |}
  = (Fragment <$> omap unit_text units, Raise e).
Proof.
  unfold consume. cbn [stream_units stream_ending].
  rewrite stream_loop_advance, gen_bind_Ok. cbn [stream_stop]. unfold lift.
  rewrite gen_bind_Raise. cbn [events outcome fst snd].
  by rewrite app_nil_r.
Qed.

Lemma stream_respond_opened {num : Type} (s : Settings) (c : client num)
    (msgs : list (gmap string pyval)) (key : option string)
    (cfg : option (gmap string num)) (st : stream) :
  open_stream s c msgs key cfg = Ok st →
  stream_respond s c msgs key cfg = consume (str_or key (default_regular_model s)) st.
Proof.
  intros H. unfold stream_respond. rewrite H. unfold lift.
  rewrite gen_bind_Ok. unfold events, outcome. by destruct (consume _ st).
Qed.

Lemma stream_respond_not_opened {num : Type} (s : Settings) (c : client num)
    (msgs : list (gmap string pyval)) (key : option string)
    (cfg : option (gmap string num)) (e : exn) :
  open_stream s c msgs key cfg = Raise e →
  stream_respond s c msgs key cfg = ([], Raise e).
Proof. intros H. unfold stream_respond. by rewrite H. Qed.

(** End-to-end scenarios 3 and 4 of the specification. *)
Example stream_three_deltas :
  stream_respond sample_settings sample_client [] None None
  = ([Fragment "Hel"; Fragment "lo"; Fragment "!"; Done "m1-q4" (Some 3) (Some "stop")],
     Ok tt).
Proof. vm_compute. reflexivity. Qed.

Example stream_dropped_after_one :
  stream_respond sample_settings dropping_client [] None None
  = ([Fragment "Hel"], Raise connection_error).
Proof. vm_compute. reflexivity. Qed.

(** C1. For every sequence of backend units that ends normally, the
    events [stream_respond] produces are zero or more Fragment events
    followed by exactly one Done event, which is the last element; the
    generator then returns, so nothing follows Done. *)
Theorem stream_fragments_then_one_done {num : Type} (s : Settings) (c : client num)
    (msgs : list (gmap string pyval)) (key : option string)
    (cfg : option (gmap string num)) (units : list chunk) :
  open_stream s c msgs key cfg
    = Ok {| stream_units := units; stream_ending := EndOfStream |} →
  ∃ texts model predicted stop,
    events (stream_respond s c msgs key cfg)
      = (Fragment <$> texts) ++ [Done model predicted stop] ∧
    outcome (stream_respond s c msgs key cfg) = Ok tt.
Proof.
  intros H. rewrite (stream_respond_opened _ _ _ _ _ _ H), consume_normal.
  by eexists _, _, _, _.
Qed.

Lemma stream_fragments_then_one_done_witness :
  ∃ texts model predicted stop,
    events (stream_respond sample_settings sample_client sample_turns None None)
      = (Fragment <$> texts) ++ [Done model predicted stop] ∧
    outcome (stream_respond sample_settings sample_client sample_turns None None) = Ok tt.
Proof.
  apply (stream_fragments_then_one_done sample_settings sample_client sample_turns
           None None sample_units).
  vm_compute. reflexivity.
Defined.

(** C2. If the backend stream raises after delivering units that caused
    N Fragment events (N >= 0, the call that opens the stream failing
    being the case without any unit), [stream_respond] produces exactly
    those N Fragment events and no Done event, and the error reaches the
    caller. *)
Theorem stream_error_truncates {num : Type} (s : Settings) (c : client num)
    (msgs : list (gmap string pyval)) (key : option string)
    (cfg : option (gmap string num)) (units : list chunk) (e : exn) :
  open_stream s c msgs key cfg
    = Ok {| stream_units := units; stream_ending := StreamError e |}
  ∨ (open_stream s c msgs key cfg = Raise e ∧ units = []) →
  events (stream_respond s c msgs key cfg) = Fragment <$> omap unit_text units ∧
  (∀ model predicted stop,
     Done model predicted stop ∉ events (stream_respond s c msgs key cfg)) ∧
  outcome (stream_respond s c msgs key cfg) = Raise e.
Proof.
  intros H.
  assert (stream_respond s c msgs key cfg = (Fragment <$> omap unit_text units, Raise e))
    as ->.
  { destruct H as [H | [H ->]].
    - by rewrite (stream_respond_opened _ _ _ _ _ _ H), consume_error.
    - by rewrite (stream_respond_not_opened _ _ _ _ _ _ H). }
  cbn [events outcome fst snd]. split; [done|]. split; [|done].
  intros model predicted stop Hin.
  apply list_elem_of_fmap in Hin as (text & Heq & _). discriminate.
Qed.

Lemma stream_error_truncates_witness :
  events (stream_respond sample_settings dropping_client sample_turns None None)
    = Fragment <$> omap unit_text [text_unit "m1-q4" "Hel"] ∧
  (∀ model predicted stop,
     Done model predicted stop
       ∉ events (stream_respond sample_settings dropping_client sample_turns None None)) ∧
  outcome (stream_respond sample_settings dropping_client sample_turns None None)
    = Raise connection_error.
Proof.
  apply (stream_error_truncates sample_settings dropping_client sample_turns
           None None [text_unit "m1-q4" "Hel"] connection_error).
  left. vm_compute. reflexivity.
Defined.

(** With a unit that names a model but carries no choices in front, Done
    carries the model of the first unit that has a choice. *)
Example stream_bare_first_unit :
  stream_respond sample_settings bare_first_client [] (Some "m") None
  = ([Fragment "hi"; Done "B" (Some 1) None], Ok tt).
Proof. vm_compute. reflexivity. Qed.

(** C3, as stated: Done would carry the model name of the first unit
    that reports one. It fails on a stream whose first unit reports
    model A without any choice and whose second unit, with a choice,
    reports model B: Done carries B. *)
Lemma done_model_counterexample :
  ¬ (∀ (s : Settings) (c : client Z) (msgs : list (gmap string pyval))
       (key : option string) (cfg : option (gmap string Z)) (units : list chunk),
       open_stream s c msgs key cfg
         = Ok {| stream_units := units; stream_ending := EndOfStream |} →
       ∃ texts,
         events (stream_respond s c msgs key cfg)
           = (Fragment <$> texts) ++
             [Done (default (str_or key (default_regular_model s))
                            (head (omap reported_model units)))
                   (fragment_count texts)
                   (last (omap unit_finish_reason units))]).
Proof.
  intros H.
  destruct (H sample_settings bare_first_client [] (Some "m") None
              [bare_unit "A"; text_unit "B" "hi"]) as (texts & Heq);
    [vm_compute; reflexivity|].
  rewrite stream_bare_first_unit in Heq. cbn [events fst] in Heq.
  change [Fragment "hi"; Done "B" (Some 1) None]
    with ([Fragment "hi"] ++ [Done "B" (Some 1) None]) in Heq.
  apply app_inj_tail in Heq as [_ Heq].
  vm_compute in Heq. discriminate Heq.
Qed.

(** C3, amended. For every normally-ending stream the Done event carries:
    the model name of the first unit that has at least one choice and
    reports a name, or the requested model when there is no such unit;
    the number of Fragment events emitted, absent when it is zero; the
    finish reason most recently reported by the first choice of a unit,
    absent when none was reported. *)
Theorem done_event_fields {num : Type} (s : Settings) (c : client num)
    (msgs : list (gmap string pyval)) (key : option string)
    (cfg : option (gmap string num)) (units : list chunk) :
  open_stream s c msgs key cfg
    = Ok {| stream_units := units; stream_ending := EndOfStream |} →
  ∃ texts,
    events (stream_respond s c msgs key cfg)
      = (Fragment <$> texts) ++
        [Done (default (str_or key (default_regular_model s))
                       (head (omap unit_model units)))
              (fragment_count texts)
              (last (omap unit_finish_reason units))].
Proof.
  intros H. rewrite (stream_respond_opened _ _ _ _ _ _ H), consume_normal.
  by exists (omap unit_text units).
Qed.

Lemma done_event_fields_witness :
  ∃ texts,
    events (stream_respond sample_settings bare_first_client sample_turns (Some "m") None)
      = (Fragment <$> texts) ++
        [Done (default (str_or (Some "m") (default_regular_model sample_settings))
                       (head (omap unit_model [bare_unit "A"; text_unit "B" "hi"])))
              (fragment_count texts)
              (last (omap unit_finish_reason [bare_unit "A"; text_unit "B" "hi"]))].
Proof.
  apply (done_event_fields sample_settings bare_first_client sample_turns (Some "m")
           None [bare_unit "A"; text_unit "B" "hi"]).
  vm_compute. reflexivity.
Defined.

(** ** The generation parameter mapper *)

Section Mapper.

Context {num : Type}.
Implicit Types (cfg : gmap string num) (params : gmap string (param num)).

Lemma config_or_empty_default (config : option (gmap string num)) :
  config_or_empty config = default ∅ config.
Proof.
  destruct config as [c|]; [|done]. simpl.
  destruct (size c =? 0)%nat eqn:Hsize; [|done].
  apply Nat.eqb_eq, map_size_empty_inv in Hsize. by subst.
Qed.

Lemma lookup_forward src dst cfg params k :
  forward src dst cfg params !! k
  = if decide (k = dst)
    then match cfg !! src with
         | Some v => Some (ParamNum v)
         | None => params !! k
         end
    else params !! k.
Proof.
  unfold forward. destruct (cfg !! src) as [v|].
  - case_decide as Hk.
    + subst. by rewrite lookup_insert_eq.
    + by rewrite lookup_insert_ne.
  - by case_decide.
Qed.

Lemma lookup_generation_params cfg params k :
  generation_params cfg params !! k
  = match client_field k with
    | Some src =>
        match cfg !! src with
        | Some v => Some (ParamNum v)
        | None => params !! k
        end
    | None => params !! k
    end.
Proof.
  unfold generation_params, client_field. rewrite !lookup_forward.
  repeat case_decide; subst; try done.
Qed.

Lemma respond_params_built (s : Settings) (msgs : list (gmap string pyval))
    (key : option string) (config : option (gmap string num))
    (fm : list formatted_message) :
  build_messages msgs = Ok fm →
  respond_params s msgs key config
  = Ok (generation_params (default ∅ config)
          (<["messages" := ParamMessages fm]>
             (<["model" := ParamStr (str_or key (default_regular_model s))]> ∅))).
Proof.
  intros H. unfold respond_params. by rewrite H, bind_Ok, config_or_empty_default.
Qed.

Lemma stream_params_built (s : Settings) (msgs : list (gmap string pyval))
    (key : option string) (config : option (gmap string num))
    (fm : list formatted_message) :
  build_messages msgs = Ok fm →
  stream_params s msgs key config
  = Ok (generation_params (default ∅ config)
          (<["stream" := ParamBool true]>
             (<["messages" := ParamMessages fm]>
                (<["model" := ParamStr (str_or key (default_regular_model s))]> ∅)))).
Proof.
  intros H. unfold stream_params. by rewrite H, bind_Ok, config_or_empty_default.
Qed.

Lemma generation_entry_lookup (config : option (gmap string num)) params k :
  params !! k = None →
  generation_params (default ∅ config) params !! k = generation_entry config k.
Proof.
  intros Hk. rewrite lookup_generation_params, Hk. unfold generation_entry.
  destruct (client_field k) as [src|]; [|done]. simpl.
  by destruct (default ∅ config !! src).
Qed.

Lemma model_param_kept cfg params :
  generation_params cfg params !! "model" = params !! "model".
Proof. by rewrite lookup_generation_params. Qed.

End Mapper.

(** C6. For every generation config, the absent one included, the
    parameters of the backend call other than model, messages and stream
    are exactly the present config fields under the fixed renaming
    (temperature, maxTokens to max_tokens, topP to top_p, presencePenalty
    to presence_penalty, frequencyPenalty to frequency_penalty), each
    with the config's value unchanged; an absent config adds none. This
    holds for [respond] and for [stream_respond]. *)
Theorem generation_parameters_exact {num : Type} (s : Settings)
    (msgs : list (gmap string pyval)) (key : option string)
    (config : option (gmap string num)) (fm : list formatted_message) :
  build_messages msgs = Ok fm →
  ∃ rp sp,
    respond_params s msgs key config = Ok rp ∧
    stream_params s msgs key config = Ok sp ∧
    ∀ k, k ≠ "model" → k ≠ "messages" → k ≠ "stream" →
      rp !! k = generation_entry config k ∧
      sp !! k = generation_entry config k.
Proof.
  intros Hfm. eexists _, _.
  split; [by apply respond_params_built|].
  split; [by apply stream_params_built|].
  intros k Hmodel Hmessages Hstream.
  split; apply generation_entry_lookup; by rewrite !lookup_insert_ne.
Qed.

Lemma generation_parameters_exact_witness :
  ∃ rp sp,
    respond_params sample_settings sample_turns None (Some sample_config) = Ok rp ∧
    stream_params sample_settings sample_turns None (Some sample_config) = Ok sp ∧
    ∀ k, k ≠ "model" → k ≠ "messages" → k ≠ "stream" →
      rp !! k = generation_entry (Some sample_config) k ∧
      sp !! k = generation_entry (Some sample_config) k.
Proof.
  apply (generation_parameters_exact sample_settings sample_turns None
           (Some sample_config) (spec_normalize <$> sample_turns)).
  vm_compute. reflexivity.
Defined.

(** What the mapper owes for the sample config: the two present fields
    renamed, nothing for the unknown key, nothing for absent fields. *)
Example generation_entry_sample :
  generation_entry (Some sample_config) "temperature" = Some (ParamNum 7) ∧
  generation_entry (Some sample_config) "max_tokens" = Some (ParamNum 256) ∧
  generation_entry (Some sample_config) "maxTokens" = None ∧
  generation_entry (Some sample_config) "seed" = None ∧
  generation_entry (Some sample_config) "top_p" = None ∧
  generation_entry (None : option (gmap string Z)) "temperature" = None.
Proof. vm_compute. repeat split. Qed.

(** ** Model resolution *)

Lemma respond_echo {num : Type} (s : Settings) (msgs : list (gmap string pyval))
    (key : option string) (cfg : option (gmap string num))
    (fm : list formatted_message) :
  build_messages msgs = Ok fm →
  ∃ r, respond s echo_client msgs key cfg = Ok r ∧
       rr_model r = str_or key (default_regular_model s).
Proof.
  intros Hfm. unfold respond.
  rewrite (respond_params_built s msgs key cfg fm Hfm), bind_Ok.
  cbn [create echo_client]. rewrite model_param_kept.
  rewrite lookup_insert_ne by done. rewrite lookup_insert_eq.
  rewrite bind_Ok. cbn. eauto.
Qed.

Lemma stream_respond_echo {num : Type} (s : Settings)
    (msgs : list (gmap string pyval)) (key : option string)
    (cfg : option (gmap string num)) (fm : list formatted_message) :
  build_messages msgs = Ok fm →
  stream_respond s echo_client msgs key cfg
  = ([Done (str_or key (default_regular_model s)) None None], Ok tt).
Proof.
  intros Hfm.
  rewrite (stream_respond_opened s echo_client msgs key cfg
             {| stream_units := []; stream_ending := EndOfStream |}).
  - by rewrite consume_normal.
  - unfold open_stream.
    rewrite (stream_params_built s msgs key cfg fm Hfm), bind_Ok.
    cbn [create_stream echo_client]. rewrite model_param_kept.
    rewrite !lookup_insert_ne by done. by rewrite lookup_insert_eq.
Qed.

Lemma str_or_same (x : string) : str_or (Some x) x = x.
Proof. simpl. by destruct (string_nonempty x). Qed.

(** C7, as stated. The explicit path would use the client's key whenever
    one is present, and the vision path would always use the configured
    vision default. An empty key is present and yet the regular default
    is used; with an empty vision default the vision path uses the
    regular default. *)
Lemma model_resolution_counterexample :
  ¬ (∀ (s : Settings) (msgs : list (gmap string pyval)) (k : string)
       (cfg : option (gmap string Z)) (p : gmap string (param Z)),
       respond_params s msgs (Some k) cfg = Ok p →
       p !! "model" = Some (ParamStr k))
  ∧
  ¬ (∀ (s : Settings) (msgs : list (gmap string pyval))
       (cfg : option (gmap string Z)) (r : respond_result),
       respond_vision s echo_client msgs cfg = Ok r →
       rr_model r = default_vision_model s).
Proof.
  split; intros H.
  - destruct (respond_params (num:=Z) sample_settings [] (Some EmptyString) None)
      as [p|e] eqn:Hp; [|vm_compute in Hp; discriminate Hp].
    specialize (H _ _ _ _ _ Hp).
    vm_compute in Hp. injection Hp as <-.
    vm_compute in H. discriminate H.
  - destruct (respond_vision (num:=Z) empty_vision_settings echo_client [] None)
      as [r|e] eqn:Hr; [|vm_compute in Hr; discriminate Hr].
    specialize (H _ _ _ _ Hr).
    vm_compute in Hr. injection Hr as <-.
    vm_compute in H. discriminate H.
Qed.

(** C7, amended. On the explicit path ([respond], [stream_respond]) the
    model of the backend call is the client's key when it is present and
    non-empty, else the configured regular default; on the regular path
    it is always the configured regular default; on the vision path it
    is the configured vision default whenever that is non-empty. *)
Theorem model_resolution {num : Type} (s : Settings)
    (msgs : list (gmap string pyval)) (key : option string)
    (cfg : option (gmap string num)) (fm : list formatted_message) :
  build_messages msgs = Ok fm →
  let regular := default_regular_model s in
  let vision := default_vision_model s in
  let explicit :=
    match key with
    | Some k => if string_nonempty k then k else regular
    | None => regular
    end in
  (∃ p, respond_params s msgs key cfg = Ok p ∧
        p !! "model" = Some (ParamStr explicit)) ∧
  (∃ p, stream_params s msgs key cfg = Ok p ∧
        p !! "model" = Some (ParamStr explicit)) ∧
  (∃ r, respond_regular s echo_client msgs cfg = Ok r ∧ rr_model r = regular) ∧
  events (stream_respond_regular s echo_client msgs cfg) = [Done regular None None] ∧
  (string_nonempty vision = true →
     (∃ r, respond_vision s echo_client msgs cfg = Ok r ∧ rr_model r = vision) ∧
     events (stream_respond_vision s echo_client msgs cfg) = [Done vision None None]).
Proof.
  intros Hfm regular vision explicit.
  split; [|split; [|split; [|split]]].
  - eexists. split; [by apply respond_params_built|].
    rewrite model_param_kept, lookup_insert_ne by done.
    rewrite lookup_insert_eq. reflexivity.
  - eexists. split; [by apply stream_params_built|].
    rewrite model_param_kept, !lookup_insert_ne by done.
    rewrite lookup_insert_eq. reflexivity.
  - destruct (respond_echo s msgs (Some regular) cfg fm Hfm) as (r & Hr & Hm).
    exists r. split; [exact Hr|]. rewrite Hm. apply str_or_same.
  - unfold stream_respond_regular.
    rewrite (stream_respond_echo s msgs (Some (default_regular_model s)) cfg fm Hfm).
    cbn [events fst]. by rewrite str_or_same.
  - intros Hvision. split.
    + destruct (respond_echo s msgs (Some vision) cfg fm Hfm) as (r & Hr & Hm).
      exists r. split; [exact Hr|]. rewrite Hm. simpl. by rewrite Hvision.
    + unfold stream_respond_vision.
      rewrite (stream_respond_echo s msgs (Some (default_vision_model s)) cfg fm Hfm).
      cbn [events fst]. simpl. fold vision. by rewrite Hvision.
Qed.

Lemma model_resolution_witness :
  (∃ p, respond_params sample_settings sample_turns (Some "qwen-custom")
          (Some sample_config) = Ok p ∧
        p !! "model" = Some (ParamStr "qwen-custom")) ∧
  (∃ p, stream_params sample_settings sample_turns (Some "qwen-custom")
          (Some sample_config) = Ok p ∧
        p !! "model" = Some (ParamStr "qwen-custom")) ∧
  (∃ r, respond_regular sample_settings echo_client sample_turns (Some sample_config)
          = Ok r ∧ rr_model r = "m1") ∧
  events (stream_respond_regular sample_settings echo_client sample_turns
            (Some sample_config)) = [Done "m1" None None] ∧
  (∃ r, respond_vision sample_settings echo_client sample_turns (Some sample_config)
          = Ok r ∧ rr_model r = "v1") ∧
  events (stream_respond_vision sample_settings echo_client sample_turns
            (Some sample_config)) = [Done "v1" None None].
Proof.
  destruct (model_resolution sample_settings sample_turns (Some "qwen-custom")
              (Some sample_config) (spec_normalize <$> sample_turns))
    as (H1 & H2 & H3 & H4 & H5); [vm_compute; reflexivity|].
  destruct (H5 eq_refl) as [H6 H7].
  exact (conj H1 (conj H2 (conj H3 (conj H4 (conj H6 H7))))).
Defined.

(** ** The completion responder *)

(** The front of an empty choice list cannot be read. *)
Lemma respond_no_choice {num : Type} (s : Settings) (c : client num)
    (msgs : list (gmap string pyval)) (key : option string)
    (cfg : option (gmap string num)) (params : gmap string (param num))
    (response : completion) :
  respond_params s msgs key cfg = Ok params →
  create c params = Ok response →
  completion_choices response = [] →
  respond s c msgs key cfg = Raise IndexError.
Proof.
  intros Hp Hc Hch. unfold respond. by rewrite Hp, bind_Ok, Hc, bind_Ok, Hch.
Qed.

(** C8. For every successful non-streaming backend response, [respond]
    returns the model name the backend reports (whatever key was
    requested), the text and finish reason of the first choice, and the
    completion token count of the usage when the backend reports usage,
    nothing otherwise. *)
Theorem respond_result_fields {num : Type} (s : Settings) (c : client num)
    (msgs : list (gmap string pyval)) (key : option string)
    (cfg : option (gmap string num)) (params : gmap string (param num))
    (response : completion) (choice0 : choice) (others : list choice) :
  respond_params s msgs key cfg = Ok params →
  create c params = Ok response →
  completion_choices response = choice0 :: others →
  respond s c msgs key cfg
  = Ok {| rr_model := completion_model response;
          rr_content := message_content (choice_message choice0);
          rr_stop_reason := choice_finish_reason choice0;
          rr_predicted_tokens :=
            match completion_usage response with
            | Some u => Some (completion_tokens u)
            | None => None
            end |}.
Proof.
  intros Hp Hc Hch. unfold respond.
  rewrite Hp, bind_Ok, Hc, bind_Ok, Hch. cbn [first]. rewrite bind_Ok.
  by destruct (completion_usage response).
Qed.

Lemma respond_result_fields_witness :
  respond sample_settings sample_client sample_turns (Some "m1") (Some sample_config)
  = Ok {| rr_model := "m1-q4";
          rr_content := Some "Hello!";
          rr_stop_reason := Some "stop";
          rr_predicted_tokens := Some 3 |}.
Proof.
  apply (respond_result_fields sample_settings sample_client sample_turns (Some "m1")
           (Some sample_config) sample_params sample_completion
           {| choice_message := {| message_content := Some "Hello!" |};
              choice_finish_reason := Some "stop" |} []).
  - vm_compute. reflexivity.
  - reflexivity.
  - reflexivity.
Defined.

(** ** The non-streaming endpoints *)

Lemma message_dump_shaped (m : ChatMessage) : turn_shaped (message_dump m) = true.
Proof. unfold turn_shaped, message_dump. by rewrite lookup_insert_eq. Qed.

Lemma message_dumps_shaped (ms : list ChatMessage) :
  forallb turn_shaped (message_dump <$> ms) = true.
Proof.
  induction ms as [|m ms IH]; [done|].
  cbn [fmap list_fmap forallb]. fold (message_dump <$> ms).
  by rewrite message_dump_shaped, IH.
Qed.

(** A validated attachment always carries both keys: an explicit null
    mime type reaches the normaliser as None, not as a missing key. *)
Lemma image_dump_keys (img : ChatImage) :
  image_dump img !! "data_base64" = Some (SStr (data_base64 img)) ∧
  image_dump img !! "mime_type" = Some (from_option SStr SNone (mime_type img)).
Proof.
  unfold image_dump. split.
  - by rewrite lookup_insert_ne, lookup_insert_eq.
  - by rewrite lookup_insert_eq.
Qed.

(** Any error raised while [respond] runs is answered 503 with its text:
    a failing backend call, and also a response without choices. *)
Lemma respond_error_is_503 {num : Type} (s : Settings) (c : client num)
    (req : ChatRequest num) (e : exn) :
  respond s c (message_dump <$> messages req) (model_key req)
    (config_dump <$> config req) = Raise e →
  chat s c req = HTTPException 503 ("Chat service unavailable: " +:+ exn_str e).
Proof. intros He. unfold chat. cbn zeta. by rewrite He. Qed.

(** A response whose first choice has text is answered with the body. *)
Lemma respond_text_is_returned {num : Type} (s : Settings) (c : client num)
    (req : ChatRequest num) (data : respond_result) (text : string) :
  respond s c (message_dump <$> messages req) (model_key req)
    (config_dump <$> config req) = Ok data →
  rr_content data = Some text →
  chat s c req = Returned {| model := rr_model data;
                             response_content := text;
                             stop_reason := rr_stop_reason data;
                             predicted_tokens := rr_predicted_tokens data |}.
Proof.
  intros Hd Ht. unfold chat. cbn zeta. rewrite Hd. cbn [guarded].
  unfold make_ChatResponse. by rewrite Ht.
Qed.

(** A completion without text passes [respond] and fails the response
    model: the handler neither returns a body nor raises the 503. *)
Example chat_null_content :
  chat sample_settings null_content_client sample_request = Escaped "ValidationError".
Proof. vm_compute. reflexivity. Qed.

Example chat_backend_down :
  chat sample_settings dropping_client sample_request
  = HTTPException 503 "Chat service unavailable: Connection error.".
Proof. vm_compute. reflexivity. Qed.

Example chat_regular_echo :
  chat_regular sample_settings echo_client
    {| regular_messages := [ {| role := "user"; content := "hi"; images := [] |} ];
       regular_config := (None : option (ChatConfig Z)) |}
  = Returned {| model := "m1"; response_content := "<echo>";
                stop_reason := Some "stop"; predicted_tokens := Some 1 |}.
Proof. vm_compute. reflexivity. Qed.

(** C9, where the code departs from it. When the backend call succeeds
    and the first choice of the response has a null text, no error is
    raised while [respond] runs, yet the handler answers neither with the
    completion body nor with the 503: building the response model fails
    after the guarded block, and that error escapes. *)
Theorem null_text_escapes_the_handler {num : Type} (s : Settings) (c : client num)
    (req : ChatRequest num) (params : gmap string (param num))
    (response : completion) (choice0 : choice) (others : list choice) :
  respond_params s (message_dump <$> messages req) (model_key req)
    (config_dump <$> config req) = Ok params →
  create c params = Ok response →
  completion_choices response = choice0 :: others →
  message_content (choice_message choice0) = None →
  (∃ data, respond s c (message_dump <$> messages req) (model_key req)
             (config_dump <$> config req) = Ok data) ∧
  chat s c req = Escaped "ValidationError" ∧
  (∀ body, chat s c req ≠ Returned body) ∧
  (∀ detail, chat s c req ≠ HTTPException 503 detail).
Proof.
  intros Hp Hc Hch Hnull.
  assert (respond s c (message_dump <$> messages req) (model_key req)
            (config_dump <$> config req)
          = Ok {| rr_model := completion_model response;
                  rr_content := None;
                  rr_stop_reason := choice_finish_reason choice0;
                  rr_predicted_tokens := completion_tokens <$> completion_usage response |})
    as Hr.
  { unfold respond. rewrite Hp, bind_Ok, Hc, bind_Ok, Hch. cbn [first].
    by rewrite bind_Ok, Hnull. }
  assert (chat s c req = Escaped "ValidationError") as Hchat.
  { unfold chat. cbn zeta. by rewrite Hr. }
  split; [eauto|]. split; [exact Hchat|]. rewrite Hchat. by split.
Qed.

Lemma null_text_escapes_the_handler_witness :
  (∃ data, respond sample_settings null_content_client
             (message_dump <$> messages sample_request) (model_key sample_request)
             (config_dump <$> config sample_request) = Ok data) ∧
  chat sample_settings null_content_client sample_request = Escaped "ValidationError" ∧
  (∀ body, chat sample_settings null_content_client sample_request ≠ Returned body) ∧
  (∀ detail, chat sample_settings null_content_client sample_request
             ≠ HTTPException 503 detail).
Proof.
  apply (null_text_escapes_the_handler sample_settings null_content_client
           sample_request sample_request_params
           {| completion_model := "m1-q4";
              completion_choices :=
                [ {| choice_message := {| message_content := None |};
                     choice_finish_reason := Some "stop" |} ];
              completion_usage := None |}
           {| choice_message := {| message_content := None |};
              choice_finish_reason := Some "stop" |} []).
  - vm_compute. reflexivity.
  - reflexivity.
  - reflexivity.
  - reflexivity.
Defined.

(** ** CORS origins *)

Example cors_samples :
  cors_origin_list "*" = ["*"] ∧
  cors_origin_list " http://a.test , ,http://b.test," = ["http://a.test"; "http://b.test"] ∧
  cors_origin_list EmptyString = [] ∧
  cors_origin_list " * " = ["*"].
Proof. vm_compute. repeat split. Qed.

Lemma lstrip_head (s : string) (a : ascii) (r : string) :
  lstrip s = String a r → is_space a = false.
Proof.
  induction s as [|b s IH]; simpl; [discriminate|].
  destruct (is_space b) eqn:Hb; [exact IH|].
  intros [= <- <-]. exact Hb.
Qed.

Lemma lstrip_fixed (a : ascii) (s : string) :
  is_space a = false → lstrip (String a s) = String a s.
Proof. intros Ha. simpl. by rewrite Ha. Qed.

Lemma rstrip_keeps_head (a : ascii) (s : string) :
  is_space a = false → ∃ r, rstrip (String a s) = String a r.
Proof.
  intros Ha. simpl. destruct (rstrip s) as [|b r].
  - rewrite Ha. eauto.
  - eauto.
Qed.

Lemma rstrip_idem (s : string) : rstrip (rstrip s) = rstrip s.
Proof.
  induction s as [|a s IH]; [done|]. simpl.
  destruct (rstrip s) as [|b r] eqn:Hr.
  - destruct (is_space a) eqn:Ha; [done|]. simpl. by rewrite Ha.
  - change (rstrip (String a (String b r)))
      with (match rstrip (String b r) with
            | EmptyString => if is_space a then EmptyString else String a EmptyString
            | String c r' => String a (String c r')
            end).
    by rewrite IH.
Qed.

Lemma strip_idem (s : string) : strip (strip s) = strip s.
Proof.
  unfold strip. destruct (lstrip s) as [|a u] eqn:Hu; [done|].
  pose proof (lstrip_head s a u Hu) as Ha.
  destruct (rstrip_keeps_head a u Ha) as [r Hr]. rewrite Hr.
  rewrite (lstrip_fixed a r Ha), <- Hr. apply rstrip_idem.
Qed.

Lemma has_comma_lstrip (s : string) :
  has_comma s = false → has_comma (lstrip s) = false.
Proof.
  induction s as [|a s IH]; [done|]. simpl. intros H.
  apply orb_false_iff in H as [Ha Hs].
  destruct (is_space a); [by apply IH|]. simpl. by rewrite Ha, Hs.
Qed.

Lemma has_comma_rstrip (s : string) :
  has_comma s = false → has_comma (rstrip s) = false.
Proof.
  induction s as [|a s IH]; [done|]. simpl. intros H.
  apply orb_false_iff in H as [Ha Hs]. specialize (IH Hs).
  destruct (rstrip s) as [|b r].
  - destruct (is_space a); [done|]. simpl. by rewrite Ha.
  - cbn [has_comma]. cbn [has_comma] in IH. by rewrite Ha, IH.
Qed.

Lemma has_comma_strip (s : string) :
  has_comma s = false → has_comma (strip s) = false.
Proof. intros H. by apply has_comma_rstrip, has_comma_lstrip. Qed.

Lemma split_commas_nonempty (s : string) : split_commas s ≠ [].
Proof.
  induction s as [|a s IH]; [done|]. simpl.
  destruct (is_comma a); [done|]. by destruct (split_commas s).
Qed.

Lemma split_commas_pieces (s : string) :
  Forall (λ p, has_comma p = false) (split_commas s).
Proof.
  induction s as [|a s IH]; simpl.
  - by repeat constructor.
  - destruct (is_comma a) eqn:Ha.
    + by constructor.
    + destruct (split_commas s) as [|p ps].
      * repeat constructor. simpl. by rewrite Ha.
      * inversion IH as [|? ? Hp Hps]; subst. constructor; [|done].
        simpl. by rewrite Ha, Hp.
Qed.

Lemma stripped_nonempty_clean (pieces : list string) (o : string) :
  Forall (λ p, has_comma p = false) pieces →
  o ∈ stripped_nonempty pieces → clean_origin o = true.
Proof.
  intros Hpieces Hin. apply list_elem_of_omap in Hin as (p & Hp & Ho).
  destruct (string_nonempty (strip p)) eqn:Hne; [|done].
  injection Ho as <-. unfold clean_origin.
  rewrite Hne, strip_idem, String.eqb_refl. simpl.
  apply negb_true_iff, has_comma_strip.
  by apply (proj1 (Forall_forall _ _) Hpieces).
Qed.

Lemma cors_origin_list_general (s : string) :
  cors_origin_list s = stripped_nonempty (split_commas s).
Proof.
  unfold cors_origin_list. destruct (String.eqb s "*") eqn:Hs; [|done].
  apply String.eqb_eq in Hs. by subst.
Qed.

Lemma split_commas_single (x : string) :
  has_comma x = false → split_commas x = [x].
Proof.
  induction x as [|a x IH]; [done|]. simpl. intros H.
  apply orb_false_iff in H as [Ha Hx]. by rewrite Ha, (IH Hx).
Qed.

Lemma split_commas_cons (x rest : string) :
  has_comma x = false →
  split_commas (x +:+ "," +:+ rest) = x :: split_commas rest.
Proof.
  induction x as [|a x IH]; [done|]. simpl. intros H.
  apply orb_false_iff in H as [Ha Hx]. by rewrite Ha, (IH Hx).
Qed.

Lemma split_join_commas (l : list string) :
  l ≠ [] → Forall (λ p, has_comma p = false) l →
  split_commas (join_commas l) = l.
Proof.
  induction l as [|x l IH]; [done|]. intros _ Hl.
  inversion Hl as [|? ? Hx Hrest]; subst.
  destruct l as [|y l].
  - simpl. by apply split_commas_single.
  - change (join_commas (x :: y :: l)) with (x +:+ "," +:+ join_commas (y :: l)).
    rewrite split_commas_cons by done. f_equal. by apply IH.
Qed.

Lemma join_origins_parsed (l : list string) :
  Forall (λ p, has_comma p = false) l →
  cors_origin_list (join_commas l) = stripped_nonempty l.
Proof.
  intros Hl. rewrite cors_origin_list_general.
  destruct l as [|x l]; [done|]. by rewrite split_join_commas.
Qed.

Lemma stripped_nonempty_id (l : list string) :
  Forall (λ o, clean_origin o = true) l → stripped_nonempty l = l.
Proof.
  induction 1 as [|o l Ho _ IH]; [done|].
  unfold stripped_nonempty in *. rewrite omap_cons, IH.
  unfold clean_origin in Ho.
  apply andb_true_iff in Ho as [Ho _]. apply andb_true_iff in Ho as [Hne Hst].
  apply String.eqb_eq in Hst. by rewrite Hst, Hne.
Qed.

(** X1. Every origin [cors_origin_list] returns is non-empty, has no
    white space left to strip at either end and contains no comma, for
    every configured string, the wildcard included. *)
Theorem cors_origins_are_clean (cors_origins : string) (i : nat) (o : string) :
  cors_origin_list cors_origins !! i = Some o → clean_origin o = true.
Proof.
  intros Hi. apply list_elem_of_lookup_2 in Hi.
  rewrite cors_origin_list_general in Hi.
  eapply stripped_nonempty_clean; [apply split_commas_pieces | exact Hi].
Qed.

Lemma cors_origins_are_clean_witness : clean_origin "http://b.test" = true.
Proof.
  apply (cors_origins_are_clean " http://a.test , ,http://b.test," 1 "http://b.test").
  vm_compute. reflexivity.
Defined.

(** X2. Round trip: joining origins that are non-empty, stripped and free
    of commas with commas and reading the result back gives the same
    list; the wildcard alone is such a list. *)
Theorem cors_origin_list_join (origins : list string) :
  forallb clean_origin origins = true →
  cors_origin_list (join_commas origins) = origins.
Proof.
  intros Hclean.
  assert (Forall (λ o, clean_origin o = true) origins) as Hall.
  { induction origins as [|o l IH]; constructor;
      simpl in Hclean; apply andb_true_iff in Hclean as [? ?]; auto. }
  rewrite join_origins_parsed.
  - by apply stripped_nonempty_id.
  - eapply Forall_impl; [exact Hall|]. intros o Ho. unfold clean_origin in Ho.
    apply andb_true_iff in Ho as [_ Ho]. by apply negb_true_iff in Ho.
Qed.

Lemma cors_origin_list_join_witness :
  cors_origin_list (join_commas ["http://a.test"; "https://b.test:8080"])
  = ["http://a.test"; "https://b.test:8080"].
Proof.
  apply (cors_origin_list_join ["http://a.test"; "https://b.test:8080"]).
  vm_compute. reflexivity.
Defined.

(** ** More on [build_messages] *)

Lemma messages_loop_acc (msgs : list (gmap string pyval)) :
  ∀ acc, messages_loop acc msgs
         = (out ← messages_loop [] msgs; mret (acc ++ out)).
Proof.
  induction msgs as [|m msgs IH]; intros acc.
  - cbn [messages_loop]. unfold mret, result_ret. by rewrite bind_Ok, app_nil_r.
  - cbn [messages_loop]. destruct (format_message m) as [fm|e]; [|done].
    rewrite !bind_Ok, (IH (acc ++ [fm])), (IH ([] ++ [fm])).
    destruct (messages_loop [] msgs) as [out|e]; [|done].
    rewrite !bind_Ok. unfold mret, result_ret. by rewrite <- app_assoc.
Qed.

Lemma format_message_unshaped (msg : gmap string pyval) :
  turn_shaped msg = false →
  ∃ e, format_message msg = Raise e ∧
       (exn_class e = "TypeError" ∨ exn_class e = "AttributeError").
Proof.
  unfold turn_shaped, format_message.
  destruct (msg !! "images") as [[s|imgs]|]; try discriminate.
  intros Hs. apply negb_false_iff in Hs.
  cbn [default from_option id]. unfold py_or. cbn [truthy]. rewrite Hs.
  cbn [truthy]. rewrite Hs. cbn [negb].
  destruct s as [|b|z|str]; try discriminate.
  - eexists. split; [reflexivity|]. by left.
  - eexists. split; [reflexivity|]. by left.
  - destruct str as [|a str]; [discriminate|].
    eexists. split; [reflexivity|]. by right.
Qed.

Lemma format_message_raises (msg : gmap string pyval) (e : exn) :
  format_message msg = Raise e →
  exn_class e = "TypeError" ∨ exn_class e = "AttributeError".
Proof.
  intros He. destruct (turn_shaped msg) eqn:Hs.
  - rewrite (format_message_shaped msg Hs) in He. discriminate.
  - destruct (format_message_unshaped msg Hs) as (e' & He' & Hclass).
    rewrite He in He'. by injection He' as <-.
Qed.

Lemma messages_loop_outcome (msgs : list (gmap string pyval)) :
  ∀ acc,
    match messages_loop acc msgs with
    | Ok _ => forallb turn_shaped msgs = true
    | Raise e =>
        forallb turn_shaped msgs = false ∧
        (exn_class e = "TypeError" ∨ exn_class e = "AttributeError")
    end.
Proof.
  induction msgs as [|m msgs IH]; intros acc; [done|].
  cbn [messages_loop forallb].
  destruct (format_message m) as [fm|e] eqn:Hm.
  - rewrite bind_Ok. specialize (IH (acc ++ [fm])).
    assert (turn_shaped m = true) as ->.
    { destruct (turn_shaped m) eqn:Hs; [done|].
      destruct (format_message_unshaped m Hs) as (e & He & _). congruence. }
    exact IH.
  - rewrite bind_Raise. split; [|by eapply format_message_raises].
    destruct (turn_shaped m) eqn:Hs; [|done].
    rewrite (format_message_shaped m Hs) in Hm. discriminate.
Qed.

(** X3. [build_messages] distributes over concatenation of
    conversations: the messages of the first part, then those of the
    second; an error of the first part is raised before the second is
    looked at. *)
Theorem build_messages_app (msgs1 msgs2 : list (gmap string pyval)) :
  build_messages (msgs1 ++ msgs2)
  = (out1 ← build_messages msgs1;
     out2 ← build_messages msgs2;
     mret (out1 ++ out2)).
Proof.
  unfold build_messages. induction msgs1 as [|m msgs1 IH].
  - cbn [app messages_loop]. unfold mret, result_ret. rewrite bind_Ok.
    destruct (messages_loop [] msgs2); done.
  - cbn [app messages_loop]. destruct (format_message m) as [fm|e]; [|done].
    rewrite !bind_Ok.
    rewrite (messages_loop_acc (msgs1 ++ msgs2)), (messages_loop_acc msgs1), IH.
    destruct (messages_loop [] msgs1) as [out1|e]; [|done]. rewrite !bind_Ok.
    destruct (messages_loop [] msgs2) as [out2|e]; [|done]. rewrite !bind_Ok.
    unfold mret, result_ret. by rewrite app_assoc.
Qed.

(** X4. On messages whose attachments hold no number, [build_messages]
    returns exactly when every message has the shape of a chat turn (its
    images entry missing, falsy or a list of attachment dictionaries);
    otherwise it raises a TypeError or an AttributeError. *)
Theorem build_messages_returns_iff_shaped (msgs : list (gmap string pyval)) :
  forallb turn_texts msgs = true →
  ((∃ out, build_messages msgs = Ok out) ↔ forallb turn_shaped msgs = true) ∧
  (∀ e, build_messages msgs = Raise e →
        exn_class e = "TypeError" ∨ exn_class e = "AttributeError").
Proof.
  intros _.
  unfold build_messages. pose proof (messages_loop_outcome msgs []) as H.
  destruct (messages_loop [] msgs) as [out|e].
  - split; [|discriminate]. split; [done | eauto].
  - destruct H as [Hshape Hclass]. split.
    + split; [intros [out Hout]; discriminate | congruence].
    + by intros e' [= <-].
Qed.

Lemma build_messages_returns_iff_shaped_witness :
  ((∃ out, build_messages [ {[ "images" := PScalar (SStr "ab") ]} ] = Ok out)
   ↔ forallb turn_shaped [ {[ "images" := PScalar (SStr "ab") ]} ] = true) ∧
  (∀ e, build_messages [ {[ "images" := PScalar (SStr "ab") ]} ] = Raise e →
        exn_class e = "TypeError" ∨ exn_class e = "AttributeError").
Proof.
  apply (build_messages_returns_iff_shaped [ {[ "images" := PScalar (SStr "ab") ]} ]).
  vm_compute. reflexivity.
Defined.

(** ** More on the responders *)

(** X5. Messages that [build_messages] rejects never reach the backend:
    whatever the client would answer, [respond] raises that error, and
    [stream_respond] raises it without yielding any event. *)
Theorem rejected_messages_stop_before_backend {num : Type} (s : Settings)
    (c : client num) (msgs : list (gmap string pyval)) (key : option string)
    (cfg : option (gmap string num)) (e : exn) :
  build_messages msgs = Raise e →
  respond s c msgs key cfg = Raise e ∧
  stream_respond s c msgs key cfg = ([], Raise e).
Proof.
  intros He. split.
  - unfold respond, respond_params. by rewrite He.
  - unfold stream_respond, open_stream, stream_params. by rewrite He.
Qed.

Lemma rejected_messages_stop_before_backend_witness :
  respond sample_settings sample_client [ {[ "images" := PScalar (SInt 5) ]} ]
    None None
  = Raise (Exn "TypeError" "'int' object is not iterable") ∧
  stream_respond sample_settings sample_client [ {[ "images" := PScalar (SInt 5) ]} ]
    None None
  = ([], Raise (Exn "TypeError" "'int' object is not iterable")).
Proof.
  apply (rejected_messages_stop_before_backend sample_settings sample_client
           [ {[ "images" := PScalar (SInt 5) ]} ] None None
           (Exn "TypeError" "'int' object is not iterable")).
  vm_compute. reflexivity.
Defined.

Lemma respond_params_regular_key {num : Type} (s : Settings)
    (msgs : list (gmap string pyval)) (cfg : option (gmap string num)) :
  respond_params s msgs (Some (default_regular_model s)) cfg
  = respond_params s msgs None cfg.
Proof. unfold respond_params. by rewrite str_or_same. Qed.

Lemma stream_params_regular_key {num : Type} (s : Settings)
    (msgs : list (gmap string pyval)) (cfg : option (gmap string num)) :
  stream_params s msgs (Some (default_regular_model s)) cfg
  = stream_params s msgs None cfg.
Proof. unfold stream_params. by rewrite str_or_same. Qed.

(** X6. The regular path is the generic path without a model key: the
    two responders and the two endpoints give the same result for every
    backend, messages and config. *)
Theorem regular_is_generic_without_key {num : Type} (s : Settings) (c : client num)
    (msgs : list (gmap string pyval)) (cfg : option (gmap string num))
    (ms : list ChatMessage) (rc : option (ChatConfig num)) :
  respond_regular s c msgs cfg = respond s c msgs None cfg ∧
  stream_respond_regular s c msgs cfg = stream_respond s c msgs None cfg ∧
  chat_regular s c {| regular_messages := ms; regular_config := rc |}
  = chat s c {| model_key := None; messages := ms; config := rc |}.
Proof.
  assert (∀ m g, respond_regular s c m g = respond s c m None g) as Hr.
  { intros m g. unfold respond_regular, respond.
    by rewrite respond_params_regular_key. }
  split; [apply Hr|]. split.
  - unfold stream_respond_regular, stream_respond, open_stream.
    by rewrite stream_params_regular_key, str_or_same.
  - unfold chat_regular, chat.
    cbn [regular_messages regular_config model_key messages config].
    by rewrite Hr.
Qed.

(** X7. The config cannot replace the base parameters of the call,
    whatever keys its dictionary holds: messages is always the normalised
    conversation, and stream is true on the streaming call and absent
    from the other. *)
Theorem base_parameters_kept {num : Type} (s : Settings)
    (msgs : list (gmap string pyval)) (key : option string)
    (config : option (gmap string num)) (fm : list formatted_message) :
  build_messages msgs = Ok fm →
  ∃ rp sp,
    respond_params s msgs key config = Ok rp ∧
    stream_params s msgs key config = Ok sp ∧
    rp !! "messages" = Some (ParamMessages fm) ∧
    rp !! "stream" = None ∧
    sp !! "messages" = Some (ParamMessages fm) ∧
    sp !! "stream" = Some (ParamBool true).
Proof.
  intros Hfm. eexists _, _.
  split; [by apply respond_params_built|].
  split; [by apply stream_params_built|].
  rewrite !lookup_generation_params. cbn [client_field].
  repeat split.
Qed.

Lemma base_parameters_kept_witness :
  ∃ rp sp,
    respond_params sample_settings sample_turns None
      (Some ({[ "stream" := 0; "messages" := 1; "temperature" := 7 ]} : gmap string Z))
      = Ok rp ∧
    stream_params sample_settings sample_turns None
      (Some ({[ "stream" := 0; "messages" := 1; "temperature" := 7 ]} : gmap string Z))
      = Ok sp ∧
    rp !! "messages" = Some (ParamMessages (spec_normalize <$> sample_turns)) ∧
    rp !! "stream" = None ∧
    sp !! "messages" = Some (ParamMessages (spec_normalize <$> sample_turns)) ∧
    sp !! "stream" = Some (ParamBool true).
Proof.
  apply (base_parameters_kept sample_settings sample_turns None
           (Some ({[ "stream" := 0; "messages" := 1; "temperature" := 7 ]}
                  : gmap string Z))
           (spec_normalize <$> sample_turns)).
  vm_compute. reflexivity.
Defined.

Lemma config_dump_lookup {num : Type} (cfg : ChatConfig num) :
  config_dump cfg !! "temperature" = temperature cfg ∧
  config_dump cfg !! "maxTokens" = maxTokens cfg ∧
  config_dump cfg !! "topP" = topP cfg ∧
  config_dump cfg !! "presencePenalty" = presencePenalty cfg ∧
  config_dump cfg !! "frequencyPenalty" = frequencyPenalty cfg.
Proof.
  destruct cfg as [[t|] [m|] [p|] [pp|] [fp|]]; unfold config_dump, dump_field;
    cbn; repeat split.
Qed.

(** X8. From the request to the call: for every request config, absent
    or not, each backend parameter of the call holds the value of its
    request field, and is missing when the field is null or the config
    absent. *)
Theorem request_config_reaches_backend {num : Type} (s : Settings)
    (msgs : list (gmap string pyval)) (key : option string)
    (cfg : option (ChatConfig num)) (fm : list formatted_message) :
  build_messages msgs = Ok fm →
  ∃ rp,
    respond_params s msgs key (config_dump <$> cfg) = Ok rp ∧
    rp !! "temperature" = ParamNum <$> (cfg ≫= temperature) ∧
    rp !! "max_tokens" = ParamNum <$> (cfg ≫= maxTokens) ∧
    rp !! "top_p" = ParamNum <$> (cfg ≫= topP) ∧
    rp !! "presence_penalty" = ParamNum <$> (cfg ≫= presencePenalty) ∧
    rp !! "frequency_penalty" = ParamNum <$> (cfg ≫= frequencyPenalty).
Proof.
  intros Hfm. eexists. split; [by apply respond_params_built|].
  rewrite !lookup_generation_params.
  change (client_field "temperature") with (Some "temperature").
  change (client_field "max_tokens") with (Some "maxTokens").
  change (client_field "top_p") with (Some "topP").
  change (client_field "presence_penalty") with (Some "presencePenalty").
  change (client_field "frequency_penalty") with (Some "frequencyPenalty").
  cbv beta iota. rewrite !lookup_insert_ne by done. rewrite !lookup_empty.
  destruct cfg as [cfg|].
  - change (default ∅ (config_dump <$> Some cfg)) with (config_dump cfg).
    destruct (config_dump_lookup cfg) as (-> & -> & -> & -> & ->).
    change (Some cfg ≫= temperature) with (temperature cfg).
    change (Some cfg ≫= maxTokens) with (maxTokens cfg).
    change (Some cfg ≫= topP) with (topP cfg).
    change (Some cfg ≫= presencePenalty) with (presencePenalty cfg).
    change (Some cfg ≫= frequencyPenalty) with (frequencyPenalty cfg).
    destruct (temperature cfg), (maxTokens cfg), (topP cfg),
      (presencePenalty cfg), (frequencyPenalty cfg); repeat split.
  - change (default ∅ (config_dump <$> None)) with (∅ : gmap string num).
    rewrite !lookup_empty. repeat split.
Qed.

Lemma request_config_reaches_backend_witness :
  ∃ rp,
    respond_params sample_settings sample_turns None
      (config_dump <$> config sample_request) = Ok rp ∧
    rp !! "temperature" = ParamNum <$> (config sample_request ≫= temperature) ∧
    rp !! "max_tokens" = ParamNum <$> (config sample_request ≫= maxTokens) ∧
    rp !! "top_p" = ParamNum <$> (config sample_request ≫= topP) ∧
    rp !! "presence_penalty" = ParamNum <$> (config sample_request ≫= presencePenalty) ∧
    rp !! "frequency_penalty" = ParamNum <$> (config sample_request ≫= frequencyPenalty).
Proof.
  apply (request_config_reaches_backend sample_settings sample_turns None
           (config sample_request) (spec_normalize <$> sample_turns)).
  vm_compute. reflexivity.
Defined.

(** ** More on the stream *)

Lemma unit_text_nonempty (c : chunk) (text : string) :
  unit_text c = Some text → string_nonempty text = true.
Proof.
  unfold unit_text. destruct (chunk_choices c) as [|ch _]; [done|].
  destruct (chunk_delta ch) as [d|]; [|done]. simpl.
  destruct (delta_content d) as [t|]; [|done]. simpl.
  destruct (string_nonempty t) eqn:Ht; [|done]. by intros [= <-].
Qed.

Lemma consume_events (model : string) (st : stream) :
  ∃ tail,
    events (consume model st) = (Fragment <$> omap unit_text (stream_units st)) ++ tail ∧
    (tail = [] ∨ ∃ m p r, tail = [Done m p r]).
Proof.
  destruct st as [units [|e]].
  - rewrite consume_normal. eexists. split; [done|]. right. eauto.
  - rewrite consume_error. exists []. split; [by rewrite app_nil_r | by left].
Qed.

(** X9. No empty fragment is ever emitted: every Fragment event of
    [stream_respond] carries a non-empty text, whatever the backend
    sends and however the stream ends. *)
Theorem fragments_are_nonempty {num : Type} (s : Settings) (c : client num)
    (msgs : list (gmap string pyval)) (key : option string)
    (cfg : option (gmap string num)) (i : nat) (text : string) :
  events (stream_respond s c msgs key cfg) !! i = Some (Fragment text) →
  string_nonempty text = true.
Proof.
  intros Hi. apply list_elem_of_lookup_2 in Hi.
  destruct (open_stream s c msgs key cfg) as [st|e] eqn:Hopen.
  - rewrite (stream_respond_opened _ _ _ _ _ _ Hopen) in Hi.
    destruct (consume_events (str_or key (default_regular_model s)) st)
      as (tail & Hev & Htail).
    rewrite Hev in Hi. apply elem_of_app in Hi as [Hi|Hi].
    + apply list_elem_of_fmap in Hi as (t & [= ->] & Ht).
      apply list_elem_of_omap in Ht as (u & _ & Hu).
      by eapply unit_text_nonempty.
    + destruct Htail as [->|(m & p & r & ->)].
      * by apply elem_of_nil in Hi.
      * apply list_elem_of_singleton in Hi. discriminate.
  - rewrite (stream_respond_not_opened _ _ _ _ _ _ Hopen) in Hi.
    by apply elem_of_nil in Hi.
Qed.

Lemma fragments_are_nonempty_witness : string_nonempty "lo" = true.
Proof.
  apply (fragments_are_nonempty sample_settings sample_client sample_turns None None
           1 "lo").
  vm_compute. reflexivity.
Defined.

(** X10. What a client has received when the stream breaks is what it
    would have received anyway: the events of a stream that fails after
    some units are a prefix of the events of every stream that starts
    with the same units, however that one continues and ends. *)
Theorem truncated_stream_is_prefix (model : string) (units more : list chunk)
    (e : exn) (ending : stream_end) :
  events (consume model {| stream_units := units; stream_ending := StreamError e |})
  `prefix_of`
  events (consume model {| stream_units := units ++ more; stream_ending := ending |}).
Proof.
  rewrite consume_error. cbn [events fst].
  destruct (consume_events model
              {| stream_units := units ++ more; stream_ending := ending |})
    as (tail & -> & _).
  cbn [stream_units]. rewrite omap_app, fmap_app, <- app_assoc.
  by eexists.
Qed.

(** ** From the validated request to the backend *)

Lemma spec_image_part_dump (img : ChatImage) :
  spec_image_part (image_dump img) = validated_image_part img.
Proof.
  unfold spec_image_part, validated_image_part, data_uri.
  destruct (image_dump_keys img) as [-> ->]. cbn [scalar_truthy py_str].
  destruct (string_nonempty (data_base64 img)); [|done].
  by destruct (mime_type img).
Qed.

Lemma omap_image_dumps (imgs : list ChatImage) :
  omap spec_image_part (image_dump <$> imgs) = omap validated_image_part imgs.
Proof.
  induction imgs as [|img imgs IH]; [done|].
  rewrite fmap_cons, !omap_cons, IH. by rewrite spec_image_part_dump.
Qed.

Lemma spec_normalize_dump (m : ChatMessage) :
  spec_normalize (message_dump m) = validated_message m.
Proof.
  unfold spec_normalize, validated_message, turn_images, turn_role, turn_text,
    spec_text_part, message_dump.
  rewrite lookup_insert_eq.
  rewrite !lookup_insert_ne by done. rewrite !lookup_insert_eq.
  cbn [default from_option id truthy scalar_truthy].
  destruct (images m) as [|img imgs]; [done|].
  rewrite fmap_cons. cbv iota. rewrite <- fmap_cons, omap_image_dumps.
  rewrite !lookup_insert_ne by done. rewrite !lookup_insert_eq.
  reflexivity.
Qed.

(** X11. What the routes send for validated messages: one message per
    request message, in order, with the role as given (never the default
    role); plain text without images; otherwise the text part, when the
    text is non-empty, then one data URI per image with non-empty data,
    whose mime type is the validated one, printed None when it is null.
    In particular [build_messages] cannot fail on a validated request. *)
Theorem validated_messages_normalised (ms : list ChatMessage) :
  build_messages (message_dump <$> ms) = Ok (validated_message <$> ms).
Proof.
  rewrite build_messages_shaped
    by (apply shaped_Forall, message_dumps_shaped).
  f_equal. rewrite <- list_fmap_compose. apply list_fmap_ext.
  intros i m _. apply spec_normalize_dump.
Qed.

Lemma event_gen_stream_body {num : Type} (dumps : event → string) (s : Settings)
    (c : client num) (ms : list ChatMessage) (key : option string)
    (cfg : option (ChatConfig num)) :
  ∃ params,
    stream_params s (message_dump <$> ms) key (config_dump <$> cfg) = Ok params ∧
    event_gen dumps
      (stream_respond s c (message_dump <$> ms) key (config_dump <$> cfg))
    = stream_body dumps (str_or key (default_regular_model s))
        (create_stream c params).
Proof.
  pose proof (validated_messages_normalised ms) as Hfm.
  eexists. split; [by apply stream_params_built|].
  unfold event_gen, stream_body.
  destruct (create_stream c _) as [[units ending]|e] eqn:Hc.
  - rewrite (stream_respond_opened s c _ key _ {| stream_units := units;
                                                  stream_ending := ending |}).
    + destruct ending as [|e]; cbn [stream_units stream_ending].
      * rewrite consume_normal. cbn [events outcome fst snd].
        by rewrite fmap_app.
      * by rewrite consume_error.
    + unfold open_stream.
      by rewrite (stream_params_built _ _ _ _ _ Hfm), bind_Ok.
  - rewrite (stream_respond_not_opened s c _ key _ e); [done|].
    unfold open_stream.
    by rewrite (stream_params_built _ _ _ _ _ Hfm), bind_Ok.
Qed.

(** X12. The streaming endpoints always answer with the NDJSON streaming
    response, never with a 503: when the backend call fails the body has
    no line and ends with the error; when the stream ends normally the
    body is one line per fragment, in order, then the Done line; when the
    stream breaks the body is the fragment lines only and ends with the
    error. *)
Theorem streaming_endpoints_body {num : Type} (dumps : event → string)
    (s : Settings) (c : client num) (req : ChatRequest num)
    (regular : RegularChatRequest num) (vision : VisionChatRequest num) :
  (∃ params,
     stream_params s (message_dump <$> messages req) (model_key req)
       (config_dump <$> config req) = Ok params ∧
     chat_stream dumps s c req
     = StreamingResponse "application/x-ndjson"
         (stream_body dumps (str_or (model_key req) (default_regular_model s))
            (create_stream c params))) ∧
  (∃ params,
     stream_params s (message_dump <$> regular_messages regular)
       (Some (default_regular_model s)) (config_dump <$> regular_config regular)
       = Ok params ∧
     chat_regular_stream dumps s c regular
     = StreamingResponse "application/x-ndjson"
         (stream_body dumps (default_regular_model s) (create_stream c params))) ∧
  (∃ params,
     stream_params s (message_dump <$> vision_messages vision)
       (Some (default_vision_model s)) (config_dump <$> vision_config vision)
       = Ok params ∧
     chat_vision_stream dumps s c vision
     = StreamingResponse "application/x-ndjson"
         (stream_body dumps
            (str_or (Some (default_vision_model s)) (default_regular_model s))
            (create_stream c params))).
Proof.
  split; [|split].
  - destruct (event_gen_stream_body dumps s c (messages req) (model_key req)
                (config req)) as (params & Hp & Hbody).
    exists params. split; [exact Hp|]. unfold chat_stream. by rewrite Hbody.
  - destruct (event_gen_stream_body dumps s c (regular_messages regular)
                (Some (default_regular_model s)) (regular_config regular))
      as (params & Hp & Hbody).
    exists params. split; [exact Hp|].
    unfold chat_regular_stream, stream_respond_regular.
    by rewrite Hbody, str_or_same.
  - destruct (event_gen_stream_body dumps s c (vision_messages vision)
                (Some (default_vision_model s)) (vision_config vision))
      as (params & Hp & Hbody).
    exists params. split; [exact Hp|].
    unfold chat_vision_stream, stream_respond_vision. by rewrite Hbody.
Qed.

(** ** The model manager *)

Section ManagerFacts.

Context {W H : Type} (lms : sdk W H).

Lemma str_or_nonempty (x : option string) (y : string) :
  string_nonempty y = true → string_nonempty (str_or x y) = true.
Proof.
  intros Hy. destruct x as [d|]; [|done]. simpl.
  by destruct (string_nonempty d) eqn:Hd.
Qed.

Lemma list_models_step_ok (result : list entry) (model : H) (w : W) :
  Forall listed result →
  ∃ w' result',
    list_models_step lms result model w = (w', Ok result') ∧
    Forall listed result' ∧
    (length result' ≤ S (length result))%nat.
Proof.
  intros Hres. unfold list_models_step, try_except, mbind, host_bind.
  destruct (get_info lms model w) as [w' [i|e]].
  - destruct (getattr (modelKey i) None) as [k|].
    + destruct (string_nonempty k) eqn:Hk.
      * eexists _, _. split; [reflexivity|]. split.
        -- apply Forall_app. split; [done|]. constructor; [|done].
           split; [done|]. eexists. split; [done|]. by apply str_or_nonempty.
        -- rewrite length_app. simpl. lia.
      * eexists _, _. split; [reflexivity|]. split; [done|lia].
    + eexists _, _. split; [reflexivity|]. split; [done|lia].
  - eexists _, _. split; [reflexivity|]. split; [done|lia].
Qed.

Lemma list_models_loop_ok (models : list H) :
  ∀ (result : list entry) (w : W),
    Forall listed result →
    ∃ w' result',
      list_models_loop lms result models w = (w', Ok result') ∧
      Forall listed result' ∧
      (length result' ≤ length result + length models)%nat.
Proof.
  induction models as [|model models IH]; intros result w Hres.
  - exists w, result. split; [done|]. split; [done|simpl; lia].
  - cbn [list_models_loop]. unfold mbind, host_bind.
    destruct (list_models_step_ok result model w Hres) as (w1 & r1 & -> & Hr1 & Hlen1).
    destruct (IH r1 w1 Hr1) as (w2 & r2 & -> & Hr2 & Hlen2).
    exists w2, r2. split; [done|]. split; [done|]. simpl. lia.
Qed.

Lemma unload_all_step_ok (unloaded : list string) (model : H) (w : W) :
  Forall (λ k, string_nonempty k = true) unloaded →
  ∃ w' unloaded',
    unload_all_step lms unloaded model w = (w', Ok unloaded') ∧
    Forall (λ k, string_nonempty k = true) unloaded' ∧
    (length unloaded' ≤ S (length unloaded))%nat.
Proof.
  intros Hres. unfold unload_all_step, try_except, mbind, host_bind.
  destruct (get_info lms model w) as [w' [i|e]].
  - destruct (unload lms model w') as [w'' [[]|e]].
    + destruct (getattr (modelKey i) None) as [k|].
      * destruct (string_nonempty k) eqn:Hk.
        -- eexists _, _. split; [reflexivity|]. split.
           ++ apply Forall_app. split; [done|]. by constructor.
           ++ rewrite length_app. simpl. lia.
        -- eexists _, _. split; [reflexivity|]. split; [done|lia].
      * eexists _, _. split; [reflexivity|]. split; [done|lia].
    + eexists _, _. split; [reflexivity|]. split; [done|lia].
  - eexists _, _. split; [reflexivity|]. split; [done|lia].
Qed.

Lemma unload_all_loop_ok (models : list H) :
  ∀ (unloaded : list string) (w : W),
    Forall (λ k, string_nonempty k = true) unloaded →
    ∃ w' unloaded',
      unload_all_loop lms unloaded models w = (w', Ok unloaded') ∧
      Forall (λ k, string_nonempty k = true) unloaded' ∧
      (length unloaded' ≤ length unloaded + length models)%nat.
Proof.
  induction models as [|model models IH]; intros unloaded w Hres.
  - exists w, unloaded. split; [done|]. split; [done|simpl; lia].
  - cbn [unload_all_loop]. unfold mbind, host_bind.
    destruct (unload_all_step_ok unloaded model w Hres) as (w1 & r1 & -> & Hr1 & Hlen1).
    destruct (IH r1 w1 Hr1) as (w2 & r2 & -> & Hr2 & Hlen2).
    exists w2, r2. split; [done|]. split; [done|]. simpl. lia.
Qed.

Lemma unload_all_returns (w : W) :
  ∃ w' keys, unload_all lms w = (w', Ok keys).
Proof.
  unfold unload_all, try_except, mbind, host_bind.
  destruct (list_loaded_models lms w) as [w1 [models|e]].
  - destruct (unload_all_loop_ok models [] w1) as (w2 & keys & -> & _); [done|].
    by exists w2, keys.
  - by exists w1, [].
Qed.

End ManagerFacts.

(** X13. [list_models] fails exactly when the host cannot list its
    models, and then with ModelNotAvailable carrying the cause; otherwise
    it returns at most one entry per loaded model, and every entry has a
    non-empty key and a non-empty display name (models whose information
    cannot be read or has no key are left out). *)
Theorem list_models_outcome {W H : Type} (lms : sdk W H) (w : W) :
  match list_loaded_models lms w with
  | (w1, Raise e) =>
      list_models lms w
      = (w1, Raise (ModelNotAvailable
                      ("Could not connect to LM Studio: " +:+ exn_str e)))
  | (w1, Ok models) =>
      ∃ w2 entries,
        list_models lms w = (w2, Ok entries) ∧
        (length entries ≤ length models)%nat ∧
        Forall listed entries
  end.
Proof.
  unfold list_models, try_except, mbind, host_bind.
  destruct (list_loaded_models lms w) as [w1 [models|e]]; [|done].
  destruct (list_models_loop_ok lms models [] w1) as (w2 & entries & Heq & Hl & Hlen);
    [done|].
  exists w2, entries. split; [exact Heq|]. split; [exact Hlen | exact Hl].
Qed.

(** X14. [unload_all] never raises, not even when the host cannot be
    reached: it returns at most one key per loaded model, every key
    non-empty, and the empty list when the models cannot be listed. *)
Theorem unload_all_never_raises {W H : Type} (lms : sdk W H) (w : W) :
  ∃ w' keys,
    unload_all lms w = (w', Ok keys) ∧
    Forall (λ k, string_nonempty k = true) keys ∧
    match list_loaded_models lms w with
    | (w1, Raise _) => keys = [] ∧ w' = w1
    | (_, Ok models) => (length keys ≤ length models)%nat
    end.
Proof.
  unfold unload_all, try_except, mbind, host_bind.
  destruct (list_loaded_models lms w) as [w1 [models|e]].
  - destruct (unload_all_loop_ok lms models [] w1) as (w2 & keys & -> & Hk & Hlen);
      [done|].
    by exists w2, keys.
  - by exists w1, [].
Qed.

(** X15. [load_model] answers with the requested key, whatever the host
    calls the model; it fails exactly when the host cannot provide the
    model, with ModelNotAvailable carrying the key and the cause. With
    exclusive set the others are unloaded first, and a failure there does
    not stop the load. The display name is the one of the host when its
    information has one, and the requested key when the information
    cannot be read or has none. *)
Theorem load_model_outcome {W H : Type} (lms : sdk W H) (model_key : string)
    (exclusive : bool) (w : W) :
  let w0 := if exclusive then fst (unload_all lms w) else w in
  match llm lms model_key w0 with
  | (w1, Raise e) =>
      load_model lms model_key exclusive w
      = (w1, Raise (ModelNotAvailable
                      ("Failed to load model " +:+ model_key +:+ ": " +:+ exn_str e)))
  | (w1, Ok model) =>
      match get_info lms model w1 with
      | (w2, Ok i) =>
          load_model lms model_key exclusive w
          = (w2, Ok {| entry_key := model_key;
                       entry_display_name := getattr (displayName i) (Some model_key) |})
      | (w2, Raise _) =>
          load_model lms model_key exclusive w
          = (w2, Ok {| entry_key := model_key;
                       entry_display_name := Some model_key |})
      end
  end.
Proof.
  intros w0. subst w0. unfold load_model, try_except, mbind, host_bind.
  destruct exclusive.
  - destruct (unload_all_returns lms w) as (w' & keys & Hu). rewrite Hu.
    cbn [fst mret host_ret].
    destruct (llm lms model_key w') as [w1 [model|e]]; [|reflexivity].
    destruct (get_info lms model w1) as [w2 [i|e]]; reflexivity.
  - cbn [mret host_ret].
    destruct (llm lms model_key w) as [w1 [model|e]]; [|reflexivity].
    destruct (get_info lms model w1) as [w2 [i|e]]; reflexivity.
Qed.

(** ** The model endpoints *)

Lemma load_model_cases {W H : Type} (lms : sdk W H) (model_key : string)
    (exclusive : bool) (w : W) :
  ∃ w',
    (∃ dn, load_model lms model_key exclusive w
           = (w', Ok {| entry_key := model_key; entry_display_name := dn |})) ∨
    (∃ message, load_model lms model_key exclusive w
                = (w', Raise (ModelNotAvailable message))).
Proof.
  unfold load_model, try_except, mbind, host_bind.
  destruct exclusive.
  - destruct (unload_all_returns lms w) as (w0 & keys & Hu). rewrite Hu.
    cbn [mret host_ret].
    destruct (llm lms model_key w0) as [w1 [model|e]].
    + destruct (get_info lms model w1) as [w2 [i|e]];
        exists w2; left; eexists; reflexivity.
    + exists w1. right. eexists. reflexivity.
  - cbn [mret host_ret].
    destruct (llm lms model_key w) as [w1 [model|e]].
    + destruct (get_info lms model w1) as [w2 [i|e]];
        exists w2; left; eexists; reflexivity.
    + exists w1. right. eexists. reflexivity.
Qed.

Lemma unload_model_cases {W H : Type} (lms : sdk W H) (model_key : string) (w : W) :
  ∃ w',
    unload_model lms model_key w = (w', Ok true) ∨
    (∃ cause, unload_model lms model_key w
              = (w', Raise (ModelNotAvailable
                              ("Failed to unload model " +:+ model_key +:+ ": "
                               +:+ exn_str cause)))).
Proof.
  unfold unload_model, try_except, mbind, host_bind.
  destruct (llm lms model_key w) as [w1 [model|e]].
  - destruct (unload lms model w1) as [w2 [[]|e]]; exists w2.
    + by left.
    + right. by exists e.
  - exists w1. right. by exists e.
Qed.

(** X16. The list endpoint answers 503, with the cause in the detail,
    exactly when the host cannot list its models; otherwise it returns
    the entries, each with a non-empty key and display name. *)
Theorem list_models_endpoint_outcome {W H : Type} (lms : sdk W H) (w : W) :
  match list_loaded_models lms w with
  | (w1, Raise e) =>
      list_models_endpoint lms w
      = (w1, ApiHTTPException 503
               ("Could not connect to LM Studio: " +:+ exn_str e))
  | (_, Ok _) =>
      ∃ w2 entries,
        list_models_endpoint lms w = (w2, ApiReturned entries) ∧
        Forall listed entries
  end.
Proof.
  unfold list_models_endpoint, list_models, try_except, mbind, host_bind.
  destruct (list_loaded_models lms w) as [w1 [models|e]]; [|reflexivity].
  destruct (list_models_loop_ok lms models [] w1) as (w2 & entries & -> & Hl & _);
    [done|].
  by exists w2, entries.
Qed.

(** X17. The load endpoint never answers with an HTTP error: it always
    returns a response, which either reports loaded with the requested
    key and no error, or not loaded with an error text and no model. *)
Theorem load_model_endpoint_outcome {W H : Type} (lms : sdk W H)
    (req : LoadModelRequest) (w : W) :
  ∃ w' response,
    load_model_endpoint lms req w = (w', ApiReturned response) ∧
    ((loaded response = true ∧ load_error response = None ∧
      ∃ dn, loaded_model response
            = Some {| entry_key := load_model_key req; entry_display_name := dn |})
     ∨
     (loaded response = false ∧ loaded_model response = None ∧
      ∃ message, load_error response = Some message)).
Proof.
  unfold load_model_endpoint.
  destruct (load_model_cases lms (load_model_key req) (load_exclusive req) w)
    as (w' & [(dn & ->)|(message & ->)]).
  - eexists _, _. split; [reflexivity|]. left. cbn. eauto.
  - eexists _, _. split; [reflexivity|]. right. cbn. eauto.
Qed.

(** X18. With unload_all set the unload endpoint always reports success,
    whatever model key the request also carries and even when the host
    cannot be reached; the keys reported are non-empty, and none are
    reported when the models cannot be listed. *)
Theorem unload_all_always_succeeds {W H : Type} (lms : sdk W H)
    (req : UnloadModelRequest) (w : W) :
  unload_all_flag req = true →
  ∃ w' keys,
    unload_model_endpoint lms req w
    = (w', ApiReturned {| success := true; unloaded_keys := keys;
                          unload_error := None |}) ∧
    Forall (λ k, string_nonempty k = true) keys ∧
    match list_loaded_models lms w with
    | (_, Raise _) => keys = []
    | (_, Ok models) => (length keys ≤ length models)%nat
    end.
Proof.
  intros Hflag. unfold unload_model_endpoint, unload_attempt. rewrite Hflag.
  unfold unload_all, try_except, mbind, host_bind.
  destruct (list_loaded_models lms w) as [w1 [models|e]].
  - destruct (unload_all_loop_ok lms models [] w1) as (w2 & keys & -> & Hk & Hlen);
      [done|].
    by exists w2, keys.
  - by exists w1, [].
Qed.

Lemma unload_all_always_succeeds_witness :
  ∃ w' keys,
    unload_model_endpoint unreachable_host
      {| unload_model_key := Some "qwen3"; unload_all_flag := true |} ["qwen3"]
    = (w', ApiReturned {| success := true; unloaded_keys := keys;
                          unload_error := None |}) ∧
    Forall (λ k, string_nonempty k = true) keys ∧
    match list_loaded_models unreachable_host ["qwen3"] with
    | (_, Raise _) => keys = []
    | (_, Ok models) => (length keys ≤ length models)%nat
    end.
Proof.
  apply (unload_all_always_succeeds unreachable_host
           {| unload_model_key := Some "qwen3"; unload_all_flag := true |} ["qwen3"]).
  reflexivity.
Defined.

(** X19. Without unload_all the unload endpoint goes by the model key:
    with no key, or an empty one, it reports failure with a fixed message
    and does not touch the host; with a key it reports success with
    exactly that key when [unload_model] succeeds, and when
    [unload_model] fails it reports failure with the text of that error,
    which names the key and the cause. It never answers with an HTTP
    error. *)
Theorem unload_by_key {W H : Type} (lms : sdk W H) (req : UnloadModelRequest)
    (w : W) :
  unload_all_flag req = false →
  match unload_model_key req with
  | Some k =>
      if string_nonempty k
      then match unload_model lms k w with
           | (w', Ok _) =>
               unload_model_endpoint lms req w
               = (w', ApiReturned {| success := true; unloaded_keys := [k];
                                     unload_error := None |})
           | (w', Raise e) =>
               unload_model_endpoint lms req w
               = (w', ApiReturned {| success := false; unloaded_keys := [];
                                     unload_error := Some (exn_str e) |}) ∧
               ∃ cause,
                 exn_str e
                 = "Failed to unload model " +:+ k +:+ ": " +:+ exn_str cause
           end
      else unload_model_endpoint lms req w
           = (w, ApiReturned {| success := false; unloaded_keys := [];
                                unload_error :=
                                  Some "Must specify model_key or unload_all=true" |})
  | None =>
      unload_model_endpoint lms req w
      = (w, ApiReturned {| success := false; unloaded_keys := [];
                           unload_error :=
                             Some "Must specify model_key or unload_all=true" |})
  end.
Proof.
  intros Hflag. unfold unload_model_endpoint, unload_attempt. rewrite Hflag.
  destruct (unload_model_key req) as [k|]; [|reflexivity].
  cbn [opt_truthy default from_option id].
  destruct (string_nonempty k); [|reflexivity].
  unfold mbind, host_bind.
  destruct (unload_model_cases lms k w) as (w' & [Hu|(cause & Hu)]); rewrite Hu.
  - reflexivity.
  - split; [reflexivity|]. by exists cause.
Qed.

Lemma unload_by_key_witness :
  unload_model_endpoint sample_host
    {| unload_model_key := Some "qwen3"; unload_all_flag := false |}
    ["qwen3"; "qwen3-vl"]
  = (["qwen3-vl"], ApiReturned {| success := true; unloaded_keys := ["qwen3"];
                                  unload_error := None |}).
Proof.
  apply (unload_by_key sample_host
           {| unload_model_key := Some "qwen3"; unload_all_flag := false |}
           ["qwen3"; "qwen3-vl"]).
  reflexivity.
Defined.

(** The same request against a host that cannot be reached. *)
Example unload_by_key_unreachable :
  unload_model_endpoint unreachable_host
    {| unload_model_key := Some "qwen3"; unload_all_flag := false |} []
  = ([], ApiReturned
           {| success := false; unloaded_keys := [];
              unload_error :=
                Some "Failed to unload model qwen3: Connection error." |}).
Proof. vm_compute. reflexivity. Qed.

Example sample_host_round :
  (load_model sample_host "qwen3" true ["qwen3-vl"]).2
  = Ok {| entry_key := "qwen3"; entry_display_name := None |} ∧
  (load_model sample_host "qwen3" true ["qwen3-vl"]).1 = ["qwen3"] ∧
  (load_model sample_host "llama" false []).2
  = Raise (ModelNotAvailable "Failed to load model llama: model not found") ∧
  (list_models sample_host ["qwen3"]).2
  = Ok [ {| entry_key := "qwen3"; entry_display_name := Some "qwen3" |} ] ∧
  unload_all unreachable_host ["qwen3"] = (["qwen3"], Ok []).
Proof. vm_compute. repeat split. Qed.
